(** * srcinit: cache lifecycle, template catalog and template generation

    A shallow embedding of [srcinit.py].  The four operations of the
    program ([sync], [reset], [list], [generate]) are written in a small
    state-and-exception monad over a [world] made of

    - the cache directory [SYNC_LOCAL_DIR], a finite map from the names of
      the files it holds to their bytes ([None] when the directory itself
      does not exist);
    - the rest of the filesystem, into which [generate] writes: a finite
      map from resolved paths to nodes.  The two parts describe the one
      filesystem only as long as no path that [generate] touches lies in
      the cache directory; the statements on what [generate] writes say
      so where they need it;
    - the number of [ZipFile] objects that are open.

    What the outside does during one call is an explicit argument: the
    line typed at [input()], which is taken to yield a line, and the
    reaction of [requests.get].  Console output ([print_normal],
    [print_verbose], the progress bar with its [content-length]) changes
    no state and is left out.  All [OSError] subclasses raised by the
    [os] functions are one exception, [OSError]. *)

From Stdlib Require Import Strings.String Strings.Ascii Init.Byte.
From stdpp Require Import base option gmap strings list fin_maps.

Local Open Scope string_scope.

(** ** Python string methods used by the program *)

Module Str.

(** [s.startswith(p)] *)
Definition startswith (s p : string) : bool := String.prefix p s.

(** [s[n:]] *)
Fixpoint drop (n : nat) (s : string) : string :=
  match n, s with
  | O, _ => s
  | S _, EmptyString => EmptyString
  | S k, String _ r => drop k r
  end.

(** [s[:n]] *)
Fixpoint take (n : nat) (s : string) : string :=
  match n, s with
  | O, _ => EmptyString
  | S _, EmptyString => EmptyString
  | S k, String c r => String c (take k r)
  end.

(** [s.endswith(suf)] *)
Definition endswith (s suf : string) : bool :=
  let n := String.length s in
  let k := String.length suf in
  (k <=? n)%nat && String.eqb (drop (n - k) s) suf.

(** [s.removesuffix(suf)]: one occurrence, and only when [suf] is not
    empty. *)
Definition removesuffix (s suf : string) : string :=
  if negb (String.eqb suf "") && endswith s suf
  then take (String.length s - String.length suf) s
  else s.

Definition lower_ascii (c : ascii) : ascii :=
  let n := nat_of_ascii c in
  if (65 <=? n)%nat && (n <=? 90)%nat then ascii_of_nat (n + 32) else c.

(** [s.lower()], on the ASCII letters. *)
Fixpoint lower (s : string) : string :=
  match s with
  | EmptyString => EmptyString
  | String c r => String (lower_ascii c) (lower r)
  end.

(** [s.split(sep)] for a one-character separator: empty pieces are
    kept, the result is never empty. *)
Fixpoint split (sep : ascii) (s : string) : list string :=
  match s with
  | EmptyString => [EmptyString]
  | String c r =>
      if Ascii.eqb c sep then EmptyString :: split sep r
      else match split sep r with
           | h :: t => String c h :: t
           | [] => [String c EmptyString]
           end
  end.

(** [sep in s] *)
Fixpoint contains (sep : ascii) (s : string) : bool :=
  match s with
  | EmptyString => false
  | String c r => Ascii.eqb c sep || contains sep r
  end.

End Str.

(** ** The world *)

(** A node of the destination tree. *)
Inductive node : Type :=
| File (data : list byte)
| Dir.

(** One member of the archive, as [ZipFile] presents it: [ZipInfo.filename]
    and the bytes that [ZipFile.open(name).read()] gives. *)
Record zip_entry : Type := ZipEntry {
  filename : string;
  content : list byte
}.

Record world : Type := World {
  cache : option (gmap string (list byte));
  disk : gmap (list string) node;
  cwd : list string;
  open_archives : nat
}.

Definition set_cache (c : option (gmap string (list byte))) (w : world) : world :=
  {| cache := c; disk := disk w; cwd := cwd w; open_archives := open_archives w |}.

Definition set_disk (d : gmap (list string) node) (w : world) : world :=
  {| cache := cache w; disk := d; cwd := cwd w; open_archives := open_archives w |}.

Definition set_open_archives (n : nat) (w : world) : world :=
  {| cache := cache w; disk := disk w; cwd := cwd w; open_archives := n |}.

(** What [requests.get(SYNC_REMOTE_URL, stream=True)] does: it raises, or
    it gives a response.  The [content-length] header of a response, when
    there is one, is a number or not: [BadContentLength] is the response
    on which [int(...)] raises.  The body of the others arrives in
    chunks; [complete = false] stands for a body that breaks off after
    the listed chunks. *)
Inductive response : Type :=
| RequestException
| KeyboardInterrupt
| BadContentLength
| Body (chunks : list (list byte)) (complete : bool).

Record env : Type := Env {
  answer : string;
  remote : response
}.

(** ** State and exceptions *)

(** [StreamError] is whatever [response.iter_content] raises when the
    body breaks off. *)
Inductive exn : Type :=
  OSError | KeyError | ValueError | BadZipFile | StreamError.

Inductive outcome (A : Type) : Type :=
| Return (a : A)
| Raise (e : exn).
Arguments Return {A} a.
Arguments Raise {A} e.

Definition M (A : Type) : Type := world -> outcome A * world.

Definition ret {A} (a : A) : M A := fun w => (Return a, w).

Definition raise {A} (e : exn) : M A := fun w => (Raise e, w).

Definition bind {A B} (m : M A) (k : A -> M B) : M B :=
  fun w =>
    match m w with
    | (Return a, w') => k a w'
    | (Raise e, w') => (Raise e, w')
    end.

Declare Scope py_scope.
Delimit Scope py_scope with py.
Notation "x <- m ;; k" := (bind m (fun x => k))
  (at level 100, m at next level, right associativity) : py_scope.
Notation "m ;; k" := (bind m (fun _ => k))
  (at level 100, right associativity) : py_scope.
Local Open Scope py_scope.

(** [when b m]: [if b: m]. *)
Definition when (b : bool) (m : M unit) : M unit := if b then m else ret tt.

(** The state a computation ends in, whatever it returned or raised. *)
Definition final {A} (m : M A) (w : world) : world := snd (m w).

(** ** The cache directory *)

(** The two files of [SYNC_LOCAL_DIR], by their names in it. *)
Definition SYNC_LOCAL_FILE : string := "templates.zip".
Definition SYNC_LOCAL_FILE_OLD : string := SYNC_LOCAL_FILE +:+ ".old".

(** The files of the cache directory; none when it does not exist. *)
Definition cache_lookup (name : string) (w : world) : option (list byte) :=
  match cache w with
  | Some d => d !! name
  | None => None
  end.

(** [os.path.isfile(name)] for a file name of the cache directory. *)
Definition isfile (name : string) : M bool :=
  fun w => (Return (bool_decide (is_Some (cache_lookup name w))), w).

(** [os.path.isdir(SYNC_LOCAL_DIR)] *)
Definition isdir_cache : M bool :=
  fun w => (Return (bool_decide (is_Some (cache w))), w).

(** [os.makedirs(SYNC_LOCAL_DIR, exist_ok=True)] *)
Definition makedirs_cache : M unit :=
  fun w =>
    match cache w with
    | Some _ => (Return tt, w)
    | None => (Return tt, set_cache (Some ∅) w)
    end.

(** [os.remove(name)] *)
Definition remove (name : string) : M unit :=
  fun w =>
    match cache w with
    | Some d =>
        match d !! name with
        | Some _ => (Return tt, set_cache (Some (delete name d)) w)
        | None => (Raise OSError, w)
        end
    | None => (Raise OSError, w)
    end.

(** [os.rename(src, dst)]: an existing [dst] is replaced. *)
Definition rename (src dst : string) : M unit :=
  fun w =>
    match cache w with
    | Some d =>
        match d !! src with
        | Some b => (Return tt, set_cache (Some (<[dst := b]> (delete src d))) w)
        | None => (Raise OSError, w)
        end
    | None => (Raise OSError, w)
    end.

(** [open(name, "wb")]: the file is created, or cut to length zero. *)
Definition open_wb_cache (name : string) : M unit :=
  fun w =>
    match cache w with
    | Some d => (Return tt, set_cache (Some (<[name := []]> d)) w)
    | None => (Raise OSError, w)
    end.

(** [file.write(data)] on the file opened under [name]. *)
Definition write_cache (name : string) (data : list byte) : M unit :=
  fun w =>
    match cache w with
    | Some d =>
        match d !! name with
        | Some b => (Return tt, set_cache (Some (<[name := (b ++ data)%list]> d)) w)
        | None => (Raise OSError, w)
        end
    | None => (Raise OSError, w)
    end.

(** [shutil.rmtree(SYNC_LOCAL_DIR, ignore_errors=True)] *)
Definition rmtree_cache : M unit :=
  fun w => (Return tt, set_cache None w).

(** ** sync *)

(** The test both prompts apply to the line read:
    [len(x) < 1 or x.lower() == "n"]. *)
Definition declined (x : string) : bool :=
  (String.length x <? 1)%nat || String.eqb (Str.lower x) "n".

(** [for data in response.iter_content(...): file.write(data)] *)
Fixpoint write_chunks (chunks : list (list byte)) : M unit :=
  match chunks with
  | [] => ret tt
  | data :: rest => write_cache SYNC_LOCAL_FILE data ;; write_chunks rest
  end.

Definition sync (e : env) (rollback : bool) : M bool :=
  if rollback then
    old <- isfile SYNC_LOCAL_FILE_OLD ;;
    if negb old then ret true
    else
      let override := answer e in
      if declined override then ret true
      else
        cur <- isfile SYNC_LOCAL_FILE ;;
        when cur (remove SYNC_LOCAL_FILE) ;;
        rename SYNC_LOCAL_FILE_OLD SYNC_LOCAL_FILE ;;
        ret true
  else
    cur <- isfile SYNC_LOCAL_FILE ;;
    (if cur then
       old <- isfile SYNC_LOCAL_FILE_OLD ;;
       when old (remove SYNC_LOCAL_FILE_OLD) ;;
       rename SYNC_LOCAL_FILE SYNC_LOCAL_FILE_OLD
     else
       d <- isdir_cache ;;
       when (negb d) makedirs_cache) ;;
    match remote e with
    | RequestException => ret false
    | KeyboardInterrupt => ret true
    | BadContentLength => raise ValueError
    | Body chunks complete =>
        open_wb_cache SYNC_LOCAL_FILE ;;
        write_chunks chunks ;;
        (if complete then ret tt else raise StreamError) ;;
        ret true
    end.

(** ** reset *)

(** The three values [reset] returns: [True], [False], and [None] from
    the bare [return]. *)
Definition reset (e : env) : M (option bool) :=
  cur <- isfile SYNC_LOCAL_FILE ;;
  if negb cur then ret None
  else
    let question := answer e in
    if declined question then ret (Some false)
    else
      rmtree_cache ;;
      ret (Some true).

(** ** The destination tree *)

(** [os.path.join(a, b)] of [posixpath]. *)
Definition os_path_join (a b : string) : string :=
  if Str.startswith b "/" then b
  else if String.eqb a "" || Str.endswith a "/" then a +:+ b
  else a +:+ "/" +:+ b.

(** The root is a directory; below it, what the map says. *)
Definition is_dir_at (d : gmap (list string) node) (p : list string) : bool :=
  match p with
  | [] => true
  | _ => match d !! p with
         | Some Dir => true
         | _ => false
         end
  end.

(** Path components that name no new entry. *)
Definition special (c : string) : bool :=
  String.eqb c "" || String.eqb c "." || String.eqb c "..".

(** One component of path resolution, from the directory [cur]. *)
Definition step (cur : list string) (c : string) : list string :=
  if String.eqb c "" || String.eqb c "." then cur
  else if String.eqb c ".." then removelast cur
  else (cur ++ [c])%list.

(** Where resolution of the path [s] starts. *)
Definition start_of (w : world) (s : string) : list string :=
  if Str.startswith s "/" then [] else cwd w.

(** Resolution of directory components: each one is looked up in a
    directory. *)
Fixpoint walk (d : gmap (list string) node) (cur : list string)
    (comps : list string) : option (list string) :=
  match comps with
  | [] => Some cur
  | c :: rest => if is_dir_at d cur then walk d (step cur c) rest else None
  end.

(** The directories of a path, created from the left where they are
    missing.  The tree that comes back holds what was created, also when
    a file in the way ends the walk ([false]). *)
Fixpoint mkdirs (d : gmap (list string) node) (cur : list string)
    (comps : list string) : bool * gmap (list string) node :=
  match comps with
  | [] => (true, d)
  | c :: rest =>
      if is_dir_at d cur then
        let nxt := step cur c in
        if is_dir_at d nxt then mkdirs d nxt rest
        else match d !! nxt with
             | Some _ => (false, d)
             | None => mkdirs (<[nxt := Dir]> d) nxt rest
             end
      else (false, d)
  end.

(** [os.makedirs(p, exist_ok=True)]: missing directories are created
    from the left; a file in the way, or the empty path, raises, and the
    directories created before that stay. *)
Definition makedirs (p : string) : M unit :=
  fun w =>
    if String.eqb p "" then (Raise OSError, w)
    else match mkdirs (disk w) (start_of w p) (Str.split "/" p) with
         | (true, d) => (Return tt, set_disk d w)
         | (false, d) => (Raise OSError, set_disk d w)
         end.

(** [open(p, "wb")]: the directory that is to hold the file must exist;
    the file is created or cut to length zero; a directory cannot be
    opened.  The value is the resolved path, which stands for the open
    file. *)
Definition open_wb (p : string) : M (list string) :=
  fun w =>
    if String.eqb p "" then (Raise OSError, w)
    else
      let comps := Str.split "/" p in
      let name := List.last comps "" in
      match walk (disk w) (start_of w p) (removelast comps) with
      | None => (Raise OSError, w)
      | Some parent =>
          if negb (is_dir_at (disk w) parent) || special name
          then (Raise OSError, w)
          else
            let target := (parent ++ [name])%list in
            match disk w !! target with
            | Some Dir => (Raise OSError, w)
            | _ => (Return target, set_disk (<[target := File []]> (disk w)) w)
            end
      end.

(** [shutil.copyfileobj(file, out)]: all of [file] goes to [out]. *)
Definition copyfileobj (file : list byte) (out : list string) : M unit :=
  fun w =>
    match disk w !! out with
    | Some (File b) => (Return tt, set_disk (<[out := File (b ++ file)%list]> (disk w)) w)
    | _ => (Raise OSError, w)
    end.

(** ** Reading the archive *)

(** [ZipInfo.is_dir()] *)
Definition is_dir (zip_info : zip_entry) : bool :=
  Str.endswith (filename zip_info) "/".

(** [zip.close()], called by the program or, when the [ZipFile] is given
    up, by its finaliser. *)
Definition zip_close : M unit :=
  fun w => (Return tt, set_open_archives (pred (open_archives w)) w).

(** [zip.open(name)]: of several members with one name the last one is
    found; the bytes are what reading the member gives. *)
Definition zip_open (zip : list zip_entry) (name : string) : M (list byte) :=
  match find (fun i => String.eqb (filename i) name) (rev zip) with
  | Some i => ret (content i)
  | None => raise KeyError
  end.

(** The body of the [for] loop of [list]. *)
Definition list_body (template_list : list string) (zip_info : zip_entry)
    : list string :=
  if negb (is_dir zip_info) then template_list
  else
    let dir_name := Str.removesuffix (filename zip_info) "/" in
    (template_list ++ [dir_name])%list.

Section Archive.

(** The [zipfile] library is not part of the program: what it makes of
    the bytes of a file is a parameter, [None] for bytes that are no
    zip archive. *)
Variable unzip : list byte -> option (list zip_entry).

(** [ZipFile(SYNC_LOCAL_FILE, "r")]; the members stand for the open
    archive. *)
Definition ZipFile : M (list zip_entry) :=
  fun w =>
    match cache_lookup SYNC_LOCAL_FILE w with
    | None => (Raise OSError, w)
    | Some b =>
        match unzip b with
        | None => (Raise BadZipFile, w)
        | Some zip => (Return zip, set_open_archives (S (open_archives w)) w)
        end
    end.

(** [list()] of the program; the name [list] is the list type here. *)
Definition list_ (e : env) : M (list string) :=
  cur <- isfile SYNC_LOCAL_FILE ;;
  synced <- (if negb cur then sync e false else ret true) ;;
  if negb synced then ret []
  else
    zip <- ZipFile ;;
    let zip_info_list := zip in
    zip_close ;;
    ret (fold_left list_body zip_info_list []).

(** The [for] loop of [generate], over [zip.namelist()]. *)
Fixpoint generate_loop (zip : list zip_entry) (name destination : string)
    (entries : list string) : M unit :=
  match entries with
  | [] => ret tt
  | entry :: rest =>
      (if negb (Str.startswith entry name) || String.eqb entry name
       then ret tt
       else
         let output :=
           os_path_join destination (Str.drop (String.length name) entry) in
         makedirs destination ;;
         file <- zip_open zip entry ;;
         out <- open_wb output ;;
         copyfileobj file out) ;;
      generate_loop zip name destination rest
  end.

(** [generate] never closes [zip].  When the function returns, the
    local [zip] is given up and CPython finalises it, which closes the
    archive: the [zip_close] before [ret true].  When the loop raises,
    the traceback of the exception keeps the frame and its [zip], and
    the archive stays open. *)
Definition generate (e : env) (template destination : string) : M bool :=
  template_list <- list_ e ;;
  if negb (bool_decide (template ∈ template_list)) then ret false
  else
    zip <- ZipFile ;;
    let name := template +:+ "/" in
    generate_loop zip name destination (map filename zip) ;;
    zip_close ;;
    ret true.

End Archive.

(** * Definitions used in the statements *)

(** The files of the cache directory once [sync] has made room for the
    download: the current archive, if there is one, has become the
    backup. *)
Definition rotated (c : option (gmap string (list byte)))
    : gmap string (list byte) :=
  match c with
  | None => ∅
  | Some d =>
      match d !! SYNC_LOCAL_FILE with
      | Some b => <[SYNC_LOCAL_FILE_OLD := b]> (delete SYNC_LOCAL_FILE d)
      | None => d
      end
  end.

(** ** Worlds and reactions used in the examples *)

Module Demo.

Definition old_bytes : list byte := list_byte_of_string "old archive".
Definition cur_bytes : list byte := list_byte_of_string "current archive".
Definition new_bytes : list (list byte) :=
  [list_byte_of_string "new "; list_byte_of_string "archive"].

Definition with_cache (c : option (gmap string (list byte))) : world :=
  {| cache := c; disk := ∅; cwd := []; open_archives := 0 |}.

(** The four states of the cache directory. *)
Definition no_cache : world := with_cache None.
Definition has_current : world :=
  with_cache (Some {[ SYNC_LOCAL_FILE := cur_bytes ]}).
Definition has_backup_only : world :=
  with_cache (Some {[ SYNC_LOCAL_FILE_OLD := old_bytes ]}).
Definition has_both : world :=
  with_cache (Some (<[ SYNC_LOCAL_FILE := cur_bytes ]>
                      {[ SYNC_LOCAL_FILE_OLD := old_bytes ]})).

Definition download : env := {| answer := ""; remote := Body new_bytes true |}.
Definition interrupted : env := {| answer := ""; remote := KeyboardInterrupt |}.
Definition offline (a : string) : env := {| answer := a; remote := RequestException |}.

End Demo.

(** ** The life of the cache directory *)

(** The three operations that change the cache directory. *)
Inductive op : Type := OpSync | OpRollback | OpReset.

(** The state one operation leaves, whatever it returns or raises. *)
Definition run (o : op) (e : env) (w : world) : world :=
  match o with
  | OpSync => final (sync e false) w
  | OpRollback => final (sync e true) w
  | OpReset => final (reset e) w
  end.

(** No file in the cache directory, or no cache directory. *)
Definition cache_empty (w : world) : Prop :=
  forall name, cache_lookup name w = None.

Inductive reachable : world -> Prop :=
| reach_empty w : cache_empty w -> reachable w
| reach_step o e w : reachable w -> reachable (run o e w).

(** The backup archives of a state: the files of the cache directory other
    than the current archive. *)
Definition backups (w : world) : gset string :=
  match cache w with
  | Some d => dom d ∖ {[SYNC_LOCAL_FILE]}
  | None => ∅
  end.

(** Only the two archive names ever occur in the cache directory. *)
Definition two_names (w : world) : Prop :=
  forall name, is_Some (cache_lookup name w) ->
    name = SYNC_LOCAL_FILE \/ name = SYNC_LOCAL_FILE_OLD.

(** The writes of [generate] go to the destination tree only. *)
Definition off_disk_same (w w' : world) : Prop :=
  cache w' = cache w /\ cwd w' = cwd w /\ open_archives w' = open_archives w.

(** ** The catalog as the specification words it *)

(** The names of the directory members that, once the trailing separator
    is removed, hold no further separator; in archive order. *)
Definition top_level_templates (zip : list zip_entry) : list string :=
  map (fun i => Str.removesuffix (filename i) "/")
    (List.filter
       (fun i => is_dir i && negb (Str.contains "/" (Str.removesuffix (filename i) "/")))
       zip).

(** ** Archives used in the examples *)

Module Fixture.

(** The content of the cached file in the examples. *)
Definition archive_bytes : list byte := list_byte_of_string "PK archive".

(** A stand-in for the [zipfile] library in the examples: it reads
    [archive_bytes] as the archive with the members [zip], and nothing
    else as an archive. *)
Definition unzip_as (zip : list zip_entry) (b : list byte)
    : option (list zip_entry) :=
  if String.eqb (string_of_list_byte b) (string_of_list_byte archive_bytes)
  then Some zip else None.

Definition a_txt : list byte := list_byte_of_string "alpha".
Definition b_txt : list byte := list_byte_of_string "beta".

(** A template [t] with a top-level file and a nested file. *)
Definition nested : list zip_entry :=
  [ {| filename := "t/"; content := [] |};
    {| filename := "t/a.txt"; content := a_txt |};
    {| filename := "t/sub/b.txt"; content := b_txt |} ].

(** The same template in an archive that also lists the nested
    directory. *)
Definition nested_with_marker : list zip_entry :=
  [ {| filename := "t/"; content := [] |};
    {| filename := "t/a.txt"; content := a_txt |};
    {| filename := "t/sub/"; content := [] |};
    {| filename := "t/sub/b.txt"; content := b_txt |} ].

(** A template with one top-level file. *)
Definition flat : list zip_entry :=
  [ {| filename := "t/"; content := [] |};
    {| filename := "t/a.txt"; content := a_txt |} ].

(** The archive is cached, the destination tree is empty. *)
Definition cached : world :=
  {| cache := Some {[ SYNC_LOCAL_FILE := archive_bytes ]};
     disk := ∅; cwd := []; open_archives := 0 |}.

Definition quiet : env := {| answer := ""; remote := RequestException |}.

End Fixture.

(** ** The loop of [generate] *)

(** The test of the loop: the member is not below the template, or it is
    the directory marker of the template itself. *)
Definition skipped (name entry : string) : bool :=
  negb (Str.startswith entry name) || String.eqb entry name.

(** What [zip.open(entry)] reads; nothing for a name the archive lacks. *)
Definition content_of (zip : list zip_entry) (entry : string) : list byte :=
  match find (fun i => String.eqb (filename i) entry) (rev zip) with
  | Some i => content i
  | None => []
  end.


(** The directory a destination resolves to. *)
Definition dest_dir (w : world) (destination : string) : list string :=
  fold_left step (Str.split "/" destination) (start_of w destination).

(** The file a member of the template goes to, for a plain relative
    name. *)
Definition target (w : world) (name destination entry : string) : list string :=
  (dest_dir w destination ++ [Str.drop (String.length name) entry])%list.


(** ** More archives and trees for the examples *)

Module Extra.

(** A template without members, beside another template. *)
Definition with_empty : list zip_entry :=
  [ {| filename := "empty/"; content := [] |};
    {| filename := "t/a.txt"; content := Fixture.a_txt |} ].


(** The archive is cached and [/out] is a file. *)
Definition out_is_file : world :=
  set_disk {[ ["out"] := File [] ]} Fixture.cached.


End Extra.


(** ** main *)

(** The parsed command line: [args.subcommand] with the arguments of the
    subcommand; [CmdHelp] when no subcommand was given. *)
Inductive command : Type :=
| CmdGenerate (template output : string)
| CmdList
| CmdSync (rollback : bool)
| CmdReset
| CmdHelp.

(** [main()] after [parse_args()]: the [match] on the subcommand.  The
    values the operations return are dropped; what is printed is left
    out. *)
Definition main (unzip : list byte -> option (list zip_entry)) (e : env)
    (args : command) : M unit :=
  match args with
  | CmdGenerate template output => generate unzip e template output ;; ret tt
  | CmdList => list_ unzip e ;; ret tt
  | CmdSync rollback => sync e rollback ;; ret tt
  | CmdReset => reset e ;; ret tt
  | CmdHelp => ret tt
  end.

Definition is_generate (args : command) : bool :=
  match args with
  | CmdGenerate _ _ => true
  | _ => false
  end.

(** The states a sequence of runs of the program with commands other
    than [generate] reaches from an empty cache. *)
Inductive invoked (unzip : list byte -> option (list zip_entry)) : world -> Prop :=
| invoked_empty w : cache_empty w -> invoked unzip w
| invoked_main e args w :
    is_generate args = false ->
    invoked unzip w -> invoked unzip (final (main unzip e args) w).

(** ** The one filesystem *)


(** The bytes of the file at a path of the one filesystem: a path
    [dir/name] is a file of the cache directory, every other path is
    looked up in the tree. *)
Definition file_at (dir : list string) (w : world) (p : list string)
    : option (list byte) :=
  match decide (take (List.length dir) p = dir), drop (List.length dir) p with
  | left _, [name] => cache_lookup name w
  | _, _ => match disk w !! p with
            | Some (File b) => Some b
            | _ => None
            end
  end.



Module Mount.

(** A place for the cache directory in the examples. *)
Definition dir : list string := ["var"; "cache"; "srcinit"].

(** The remote delivers the archive of the examples. *)
Definition fetch : env :=
  {| answer := ""; remote := Body [Fixture.archive_bytes] true |}.

End Mount.
(** * Properties *)

(** ** The cache directory after [sync] *)

Lemma file_old_distinct : SYNC_LOCAL_FILE ≠ SYNC_LOCAL_FILE_OLD.
Proof. discriminate. Qed.


Ltac unfold_ops :=
  unfold bind, ret, raise, when, isfile, isdir_cache, makedirs_cache, remove,
    rename, open_wb_cache, write_cache, rmtree_cache, cache_lookup, set_cache;
  simpl.

Lemma write_chunks_spec chunks : forall d dk cw n b,
  d !! SYNC_LOCAL_FILE = Some b ->
  write_chunks chunks (World (Some d) dk cw n) =
  (Return tt, World (Some (<[SYNC_LOCAL_FILE := (b ++ concat chunks)%list]> d)) dk cw n).
Proof.
  induction chunks as [|data rest IH]; intros d dk cw n b Hb; simpl.
  - rewrite app_nil_r, insert_id by exact Hb. reflexivity.
  - unfold_ops. rewrite Hb.
    rewrite (IH _ dk cw n (b ++ data)%list) by apply lookup_insert_eq.
    rewrite insert_insert_eq, app_assoc. reflexivity.
Qed.

Lemma sync_download e w :
  sync e false w =
  match remote e with
  | RequestException => (Return false, set_cache (Some (rotated (cache w))) w)
  | KeyboardInterrupt => (Return true, set_cache (Some (rotated (cache w))) w)
  | BadContentLength => (Raise ValueError, set_cache (Some (rotated (cache w))) w)
  | Body chunks complete =>
      (if complete then Return true else Raise StreamError,
       set_cache (Some (<[SYNC_LOCAL_FILE := concat chunks]> (rotated (cache w)))) w)
  end.
Proof.
  assert (Hfetch : forall d dk cw n,
    match remote e with
    | RequestException => ret false
    | KeyboardInterrupt => ret true
    | BadContentLength => raise ValueError
    | Body chunks complete =>
        open_wb_cache SYNC_LOCAL_FILE ;;
        write_chunks chunks ;;
        (if complete then ret tt else raise StreamError) ;;
        ret true
    end (World (Some d) dk cw n) =
    match remote e with
    | RequestException => (Return false, World (Some d) dk cw n)
    | KeyboardInterrupt => (Return true, World (Some d) dk cw n)
    | BadContentLength => (Raise ValueError, World (Some d) dk cw n)
    | Body chunks complete =>
        (if complete then Return true else Raise StreamError,
         World (Some (<[SYNC_LOCAL_FILE := concat chunks]> d)) dk cw n)
    end).
  { intros d dk cw n.
    destruct (remote e) as [| | |chunks complete]; try reflexivity.
    unfold_ops.
    rewrite (write_chunks_spec chunks _ dk cw n []) by apply lookup_insert_eq.
    rewrite insert_insert_eq. destruct complete; reflexivity. }
  destruct w as [[d|] dk cw n]; unfold sync, rotated.
  - unfold bind at 1. unfold_ops.
    destruct (d !! SYNC_LOCAL_FILE) as [b|] eqn:Hcur; simpl.
    + destruct (d !! SYNC_LOCAL_FILE_OLD) as [o|] eqn:Hold;
        simpl; rewrite ?Hold; simpl.
      * rewrite lookup_delete_ne, Hcur by (symmetry; apply file_old_distinct).
        rewrite (delete_delete d), insert_delete_eq. apply Hfetch.
      * rewrite Hcur. apply Hfetch.
    + apply Hfetch.
  - unfold bind at 1. unfold_ops. apply Hfetch.
Qed.

(** [sync(rollback=True)] always returns [True]; it changes the cache
    directory only when there is a backup and the answer does not
    decline. *)
Lemma sync_rollback e w :
  sync e true w =
  (Return true,
   match cache w with
   | Some d =>
       match d !! SYNC_LOCAL_FILE_OLD with
       | Some o =>
           if declined (answer e) then w
           else set_cache (Some (<[SYNC_LOCAL_FILE := o]> (delete SYNC_LOCAL_FILE_OLD d))) w
       | None => w
       end
   | None => w
   end).
Proof.
  destruct w as [[d|] dk cw n]; unfold sync; unfold_ops; [|reflexivity].
  destruct (d !! SYNC_LOCAL_FILE_OLD) as [o|] eqn:Hold; simpl; [|reflexivity].
  destruct (declined (answer e)); simpl; [reflexivity|].
  destruct (d !! SYNC_LOCAL_FILE) as [b|] eqn:Hcur; simpl; rewrite ?Hcur; simpl.
  - rewrite lookup_delete_ne, Hold by apply file_old_distinct.
    rewrite (delete_delete d), insert_delete_eq. reflexivity.
  - rewrite Hold. reflexivity.
Qed.

Lemma reset_cases e w :
  reset e w =
  match cache_lookup SYNC_LOCAL_FILE w with
  | None => (Return None, w)
  | Some _ =>
      if declined (answer e) then (Return (Some false), w)
      else (Return (Some true), set_cache None w)
  end.
Proof.
  unfold reset; unfold_ops.
  destruct w as [[d|] dk cw n]; simpl; [|reflexivity].
  destruct (d !! SYNC_LOCAL_FILE); simpl; [|reflexivity].
  destruct (declined (answer e)); reflexivity.
Qed.

Lemma set_cache_same w : set_cache (cache w) w = w.
Proof. destruct w; reflexivity. Qed.


(** ** C6 *)

(** C6: in every state without a backup archive, [sync(rollback=True)]
    returns [True] and leaves the whole state, the current archive
    included, as it was. *)
Theorem rollback_without_backup_noop (e : env) (w : world) :
  cache_lookup SYNC_LOCAL_FILE_OLD w = None ->
  sync e true w = (Return true, w).
Proof.
  intros Hold. rewrite sync_rollback. f_equal.
  unfold cache_lookup in Hold.
  destruct (cache w) as [d|]; [|reflexivity].
  rewrite Hold. reflexivity.
Qed.

Lemma rollback_without_backup_noop_witness :
  cache_lookup SYNC_LOCAL_FILE_OLD Demo.has_current = None /\
  sync (Demo.offline "y") true Demo.has_current = (Return true, Demo.has_current) /\
  cache_lookup SYNC_LOCAL_FILE Demo.has_current = Some Demo.cur_bytes.
Proof.
  split; [reflexivity|].
  split; [apply (rollback_without_backup_noop (Demo.offline "y") Demo.has_current); reflexivity|].
  reflexivity.
Defined.

(** ** C10 *)

(** C10: when [requests.get] raises [KeyboardInterrupt], [sync] returns
    [True], no current archive is left, and a current archive that was
    there before the call is now the backup. *)
Theorem sync_interrupted_reports_success (a : string) (w : world) :
  exists w',
    sync {| answer := a; remote := KeyboardInterrupt |} false w = (Return true, w') /\
    cache_lookup SYNC_LOCAL_FILE w' = None /\
    cache_lookup SYNC_LOCAL_FILE_OLD w' =
      match cache_lookup SYNC_LOCAL_FILE w with
      | Some b => Some b
      | None => cache_lookup SYNC_LOCAL_FILE_OLD w
      end.
Proof.
  eexists. split; [rewrite sync_download; reflexivity|].
  unfold cache_lookup, rotated; simpl.
  destruct (cache w) as [d|]; [|split; reflexivity].
  destruct (d !! SYNC_LOCAL_FILE) as [b|] eqn:Hcur.
  - split.
    + rewrite lookup_insert_ne by (symmetry; apply file_old_distinct).
      apply lookup_delete_eq.
    + apply lookup_insert_eq.
  - split; [exact Hcur|reflexivity].
Qed.

(** The state C10 speaks of: a backup and no current archive, after a
    call that returned [True]. *)
Example sync_interrupted_has_current :
  exists w',
    sync Demo.interrupted false Demo.has_current = (Return true, w') /\
    cache_lookup SYNC_LOCAL_FILE w' = None /\
    cache_lookup SYNC_LOCAL_FILE_OLD w' = Some Demo.cur_bytes.
Proof. eexists. split; [reflexivity|]. split; reflexivity. Qed.

(** ** C3 *)

Lemma rotated_lookup_old w :
  rotated (cache w) !! SYNC_LOCAL_FILE_OLD =
  match cache_lookup SYNC_LOCAL_FILE w with
  | Some b => Some b
  | None => cache_lookup SYNC_LOCAL_FILE_OLD w
  end.
Proof.
  unfold rotated, cache_lookup.
  destruct (cache w) as [d|]; [|apply lookup_empty].
  destruct (d !! SYNC_LOCAL_FILE) as [b|]; [apply lookup_insert_eq|reflexivity].
Qed.

Lemma rotated_lookup_current w :
  rotated (cache w) !! SYNC_LOCAL_FILE = None.
Proof.
  unfold rotated.
  destruct (cache w) as [d|]; [|apply lookup_empty].
  destruct (d !! SYNC_LOCAL_FILE) as [b|] eqn:Hcur; [|exact Hcur].
  rewrite lookup_insert_ne by (symmetry; apply file_old_distinct).
  apply lookup_delete_eq.
Qed.

(** C3, as the program has it: after a [sync()] that returned [True], a
    current archive that existed before the call is the backup, byte for
    byte; when there was no current archive, the backup slot is what it
    was before the call. *)
Theorem sync_success_backup (e : env) (w w' : world) :
  sync e false w = (Return true, w') ->
  cache_lookup SYNC_LOCAL_FILE_OLD w' =
  match cache_lookup SYNC_LOCAL_FILE w with
  | Some b => Some b
  | None => cache_lookup SYNC_LOCAL_FILE_OLD w
  end.
Proof.
  rewrite sync_download. intros Hrun.
  rewrite <- rotated_lookup_old.
  destruct (remote e) as [| | |chunks complete].
  - discriminate.
  - injection Hrun as <-. reflexivity.
  - discriminate.
  - injection Hrun as _ <-. unfold cache_lookup; simpl.
    apply lookup_insert_ne, file_old_distinct.
Qed.

Lemma sync_success_backup_witness :
  sync Demo.download false Demo.has_both =
    (Return true, final (sync Demo.download false) Demo.has_both) /\
  cache_lookup SYNC_LOCAL_FILE_OLD (final (sync Demo.download false) Demo.has_both) =
    Some Demo.cur_bytes.
Proof.
  split; [reflexivity|].
  apply (sync_success_backup Demo.download Demo.has_both). reflexivity.
Defined.

(** C3 as the specification words it fails: a successful [sync()] that
    starts with a backup and no current archive ends with that backup
    still in place. *)
Lemma sync_success_backup_counterexample :
  exists w',
    sync Demo.download false Demo.has_backup_only = (Return true, w') /\
    cache_lookup SYNC_LOCAL_FILE Demo.has_backup_only = None /\
    cache_lookup SYNC_LOCAL_FILE_OLD w' = Some Demo.old_bytes /\
    ~ (is_Some (cache_lookup SYNC_LOCAL_FILE_OLD w') <->
       is_Some (cache_lookup SYNC_LOCAL_FILE Demo.has_backup_only)).
Proof.
  eexists. split; [reflexivity|].
  split; [reflexivity|]. split; [reflexivity|].
  intros [Hl _]. destruct Hl as [b Hb]; [eexists; reflexivity|discriminate].
Qed.

(** The current archive after a download that ran to its end. *)
Lemma sync_body_current a chunks w :
  exists w',
    sync {| answer := a; remote := Body chunks true |} false w = (Return true, w') /\
    cache_lookup SYNC_LOCAL_FILE w' = Some (concat chunks).
Proof.
  eexists. split; [rewrite sync_download; reflexivity|].
  unfold cache_lookup; simpl. apply lookup_insert_eq.
Qed.

(** ** C4 *)

Example declined_answers :
  declined "" = true /\ declined "n" = true /\ declined "N" = true /\
  declined "no" = false /\ declined "y" = false.
Proof. repeat split. Qed.

(** C4, as the program has it: a declined confirmation leaves the state
    unchanged in both operations; the rollback then returns [True], the
    reset returns [False]. *)
Theorem declined_confirmation (e : env) (w : world) :
  declined (answer e) = true ->
  (is_Some (cache_lookup SYNC_LOCAL_FILE_OLD w) ->
   sync e true w = (Return true, w)) /\
  (is_Some (cache_lookup SYNC_LOCAL_FILE w) ->
   reset e w = (Return (Some false), w)).
Proof.
  intros Hno. split.
  - intros _. rewrite sync_rollback, Hno. f_equal.
    destruct (cache w) as [d|]; [|reflexivity].
    destruct (d !! SYNC_LOCAL_FILE_OLD); reflexivity.
  - intros [b Hb]. rewrite reset_cases, Hb, Hno. reflexivity.
Qed.

Lemma declined_confirmation_witness :
  declined (answer (Demo.offline "n")) = true /\
  sync (Demo.offline "n") true Demo.has_both = (Return true, Demo.has_both) /\
  reset (Demo.offline "n") Demo.has_both = (Return (Some false), Demo.has_both).
Proof.
  split; [reflexivity|].
  destruct (declined_confirmation (Demo.offline "n") Demo.has_both eq_refl)
    as [Hrollback Hreset].
  split; [apply Hrollback|apply Hreset]; eexists; reflexivity.
Defined.

(** C4 as the specification words it fails for [reset]: with a current
    archive present and the empty answer, [reset] returns [False], not
    the value of success. *)
Lemma declined_confirmation_counterexample :
  declined (answer (Demo.offline "")) = true /\
  is_Some (cache_lookup SYNC_LOCAL_FILE Demo.has_current) /\
  reset (Demo.offline "") Demo.has_current = (Return (Some false), Demo.has_current) /\
  fst (reset (Demo.offline "") Demo.has_current) <> Return (Some true).
Proof.
  split; [reflexivity|]. split; [eexists; reflexivity|].
  split; [reflexivity|]. discriminate.
Qed.

(** ** C8 *)

Lemma elem_of_backups name w :
  name ∈ backups w <->
  name ≠ SYNC_LOCAL_FILE /\ is_Some (cache_lookup name w).
Proof.
  unfold backups, cache_lookup. destruct (cache w) as [d|].
  - rewrite elem_of_difference, elem_of_dom, not_elem_of_singleton. tauto.
  - split; [intros H; exact (False_ind _ (not_elem_of_empty _ H))|].
    intros [_ [b Hb]]. discriminate.
Qed.

(** A file of the rotated directory is the new backup or was there
    before. *)
Lemma rotated_lookup_other name w :
  name ≠ SYNC_LOCAL_FILE -> name ≠ SYNC_LOCAL_FILE_OLD ->
  rotated (cache w) !! name = cache_lookup name w.
Proof.
  intros Hcur Hold. unfold rotated, cache_lookup.
  destruct (cache w) as [d|]; [|apply lookup_empty].
  destruct (d !! SYNC_LOCAL_FILE) as [b|]; [|reflexivity].
  rewrite lookup_insert_ne, lookup_delete_ne by congruence. reflexivity.
Qed.

(** What [sync()] leaves under a name other than that of the current
    archive. *)
Lemma sync_lookup_other e name w :
  name ≠ SYNC_LOCAL_FILE ->
  cache_lookup name (final (sync e false) w) = rotated (cache w) !! name.
Proof.
  intros Hcur. unfold final. rewrite sync_download.
  destruct (remote e) as [| | |chunks complete]; unfold cache_lookup; simpl;
    try reflexivity.
  apply lookup_insert_ne. congruence.
Qed.

Lemma rollback_lookup_other e name w :
  name ≠ SYNC_LOCAL_FILE ->
  is_Some (cache_lookup name (final (sync e true) w)) ->
  is_Some (cache_lookup name w).
Proof.
  intros Hcur. unfold final. rewrite sync_rollback. simpl.
  unfold cache_lookup at 2.
  destruct (cache w) as [d|] eqn:Hc; [|unfold cache_lookup; rewrite Hc; auto].
  destruct (d !! SYNC_LOCAL_FILE_OLD) as [o|];
    [|unfold cache_lookup; rewrite Hc; auto].
  destruct (declined (answer e)); [unfold cache_lookup; rewrite Hc; auto|].
  unfold cache_lookup; simpl.
  rewrite lookup_insert_ne by congruence.
  rewrite lookup_delete. case_decide; [intros [b Hb]; discriminate|auto].
Qed.

Lemma reset_lookup e name w :
  is_Some (cache_lookup name (final (reset e) w)) ->
  is_Some (cache_lookup name w).
Proof.
  unfold final. rewrite reset_cases.
  destruct (cache_lookup SYNC_LOCAL_FILE w); [|auto].
  destruct (declined (answer e)); [auto|].
  intros [b Hb]. discriminate.
Qed.

(** A backup that was not there before the step is the former current
    archive, moved there by a [sync()]. *)
Lemma new_backup_from_sync o e name w :
  name ∉ backups w -> name ∈ backups (run o e w) ->
  o = OpSync /\ name = SYNC_LOCAL_FILE_OLD /\
  exists b, cache_lookup SYNC_LOCAL_FILE w = Some b /\
            cache_lookup SYNC_LOCAL_FILE_OLD (run o e w) = Some b.
Proof.
  rewrite !elem_of_backups. intros Hnot [Hcur Hin].
  assert (Hfresh : ~ is_Some (cache_lookup name w)) by tauto.
  destruct o; unfold run in *.
  - rewrite sync_lookup_other in Hin by exact Hcur.
    destruct (decide (name = SYNC_LOCAL_FILE_OLD)) as [->|Hold].
    + split; [reflexivity|]. split; [reflexivity|].
      rewrite sync_lookup_other by (symmetry; apply file_old_distinct).
      rewrite rotated_lookup_old in *.
      destruct (cache_lookup SYNC_LOCAL_FILE w) as [b|]; [|contradiction].
      exists b. split; reflexivity.
    + rewrite rotated_lookup_other in Hin by assumption. contradiction.
  - apply rollback_lookup_other in Hin; [contradiction|exact Hcur].
  - apply reset_lookup in Hin. contradiction.
Qed.

Lemma run_two_names o e w : two_names w -> two_names (run o e w).
Proof.
  intros Hinv name Hin.
  destruct (decide (name = SYNC_LOCAL_FILE)) as [->|Hcur]; [left; reflexivity|].
  destruct (decide (name = SYNC_LOCAL_FILE_OLD)) as [->|Hold]; [right; reflexivity|].
  apply Hinv. destruct o; unfold run in Hin.
  - rewrite sync_lookup_other, rotated_lookup_other in Hin by assumption.
    exact Hin.
  - apply (rollback_lookup_other e); assumption.
  - apply (reset_lookup e). exact Hin.
Qed.

Lemma reachable_two_names w : reachable w -> two_names w.
Proof.
  induction 1 as [w Hempty|o e w _ IH].
  - intros name [b Hb]. rewrite Hempty in Hb. discriminate.
  - apply run_two_names, IH.
Qed.

(** C8: in every state reached from an empty cache by [sync()],
    [sync(rollback=True)] and [reset()], the cache directory holds at
    most one file besides the current archive; and a backup that a step
    brings into existence is the current archive of the state before,
    renamed by a [sync()]. *)
Theorem reachable_backup_invariant (w : world) :
  reachable w ->
  size (backups w) <= 1 /\
  forall o e name,
    name ∉ backups w -> name ∈ backups (run o e w) ->
    o = OpSync /\ name = SYNC_LOCAL_FILE_OLD /\
    exists b, cache_lookup SYNC_LOCAL_FILE w = Some b /\
              cache_lookup SYNC_LOCAL_FILE_OLD (run o e w) = Some b.
Proof.
  intros Hreach. split.
  - assert (Hsub : backups w ⊆ {[SYNC_LOCAL_FILE_OLD]}).
    { intros name Hin. apply elem_of_backups in Hin as [Hcur Hin].
      apply (reachable_two_names w Hreach) in Hin as [->| ->];
        [contradiction|apply elem_of_singleton; reflexivity]. }
    apply subseteq_size in Hsub. rewrite size_singleton in Hsub. exact Hsub.
  - intros o e name. apply new_backup_from_sync.
Qed.

Lemma reachable_backup_invariant_witness :
  reachable (run OpSync Demo.download Demo.no_cache) /\
  size (backups (run OpSync Demo.download Demo.no_cache)) <= 1 /\
  (SYNC_LOCAL_FILE_OLD ∉ backups (run OpSync Demo.download Demo.no_cache)) /\
  (SYNC_LOCAL_FILE_OLD ∈
     backups (run OpSync Demo.download (run OpSync Demo.download Demo.no_cache))) /\
  exists b,
    cache_lookup SYNC_LOCAL_FILE (run OpSync Demo.download Demo.no_cache) = Some b /\
    cache_lookup SYNC_LOCAL_FILE_OLD
      (run OpSync Demo.download (run OpSync Demo.download Demo.no_cache)) = Some b.
Proof.
  assert (Hreach : reachable (run OpSync Demo.download Demo.no_cache)).
  { apply reach_step, reach_empty. intros name. reflexivity. }
  assert (Hbefore :
    SYNC_LOCAL_FILE_OLD ∉ backups (run OpSync Demo.download Demo.no_cache)).
  { rewrite elem_of_backups. intros [_ [b Hb]]. vm_compute in Hb. discriminate. }
  assert (Hafter :
    SYNC_LOCAL_FILE_OLD ∈
      backups (run OpSync Demo.download (run OpSync Demo.download Demo.no_cache))).
  { rewrite elem_of_backups. split; [discriminate|].
    eexists. vm_compute. reflexivity. }
  destruct (reachable_backup_invariant _ Hreach) as [Hone Hnew].
  split; [exact Hreach|]. split; [exact Hone|].
  split; [exact Hbefore|]. split; [exact Hafter|].
  exact (proj2 (proj2 (Hnew OpSync Demo.download SYNC_LOCAL_FILE_OLD Hbefore Hafter))).
Defined.

(** The state with a backup and no current archive is reached by a
    download followed by a [sync()] that finds the remote out of reach. *)
Example backup_only_reachable :
  let w := run OpSync (Demo.offline "") (run OpSync Demo.download Demo.no_cache) in
  reachable w /\
  cache_lookup SYNC_LOCAL_FILE w = None /\
  cache_lookup SYNC_LOCAL_FILE_OLD w = Some (concat Demo.new_bytes).
Proof.
  split.
  - do 2 apply reach_step. apply reach_empty. intros name. reflexivity.
  - split; vm_compute; reflexivity.
Qed.

(** ** The catalog *)

(** The loop of [list] collects the stripped names of the directory
    members, in order. *)
Lemma list_loop_spec zip : forall acc,
  fold_left list_body zip acc =
  (acc ++ map (fun i => Str.removesuffix (filename i) "/") (List.filter is_dir zip))%list.
Proof.
  induction zip as [|i zip IH]; intros acc; simpl.
  - symmetry. apply app_nil_r.
  - rewrite IH. unfold list_body.
    destruct (is_dir i); simpl; [|reflexivity].
    rewrite <- app_assoc. reflexivity.
Qed.

(** [list()] with the archive in the cache: no [sync()], the archive is
    opened and closed, the state is as before. *)
Lemma list_cached unzip e w b zip :
  cache_lookup SYNC_LOCAL_FILE w = Some b ->
  unzip b = Some zip ->
  list_ unzip e w = (Return (fold_left list_body zip []), w).
Proof.
  intros Hcur Hzip. unfold list_, ZipFile, zip_close, isfile, bind, ret.
  rewrite Hcur. simpl. rewrite Hcur, Hzip. simpl.
  destruct w; reflexivity.
Qed.

(** [list()] with no current archive starts with a [sync()]. *)
Lemma list_not_cached unzip e w :
  cache_lookup SYNC_LOCAL_FILE w = None ->
  list_ unzip e w =
  (synced <- sync e false ;;
   if negb synced then ret []
   else zip <- ZipFile unzip ;; zip_close ;; ret (fold_left list_body zip [])) w.
Proof.
  intros Hcur. unfold list_, isfile. unfold bind at 1. rewrite Hcur. simpl.
  unfold bind at 1. unfold bind at 4. unfold bind at 1.
  destruct (sync e false w) as [[synced|ex] w1]; reflexivity.
Qed.

(** ** C2 *)

(** C2, as the program has it: with the archive in the cache, [list()]
    returns the names, trailing separator removed, of all directory
    members in archive order, whatever their depth, and leaves the state
    as it was. *)
Theorem list_all_directories
    (unzip : list byte -> option (list zip_entry)) (e : env) (w : world)
    (b : list byte) (zip : list zip_entry) :
  cache_lookup SYNC_LOCAL_FILE w = Some b ->
  unzip b = Some zip ->
  list_ unzip e w =
  (Return (map (fun i => Str.removesuffix (filename i) "/") (List.filter is_dir zip)), w).
Proof.
  intros Hcur Hzip. rewrite (list_cached unzip e w b zip Hcur Hzip).
  rewrite list_loop_spec. reflexivity.
Qed.

Lemma list_all_directories_witness :
  list_ (Fixture.unzip_as Fixture.nested_with_marker) Fixture.quiet Fixture.cached =
  (Return ["t"; "t/sub"], Fixture.cached).
Proof.
  apply (list_all_directories (Fixture.unzip_as Fixture.nested_with_marker)
           Fixture.quiet Fixture.cached Fixture.archive_bytes
           Fixture.nested_with_marker); reflexivity.
Defined.

(** C2 as the specification words it fails: a directory member below a
    template is listed, and the result is not the list of the top-level
    directories. *)
Lemma list_all_directories_counterexample :
  exists l,
    list_ (Fixture.unzip_as Fixture.nested_with_marker) Fixture.quiet Fixture.cached =
      (Return l, Fixture.cached) /\
    l = ["t"; "t/sub"] /\
    top_level_templates Fixture.nested_with_marker = ["t"] /\
    l <> top_level_templates Fixture.nested_with_marker.
Proof.
  exists ["t"; "t/sub"]. split; [vm_compute; reflexivity|].
  split; [reflexivity|]. split; [reflexivity|]. discriminate.
Qed.

(** The two readings agree on archives whose directory members are all
    top-level. *)
Lemma list_top_level_only zip :
  (forall i, In i zip -> is_dir i = true ->
     Str.contains "/" (Str.removesuffix (filename i) "/") = false) ->
  map (fun i => Str.removesuffix (filename i) "/") (List.filter is_dir zip) =
  top_level_templates zip.
Proof.
  unfold top_level_templates. induction zip as [|i zip IH]; intros Hflat.
  - reflexivity.
  - simpl. destruct (is_dir i) eqn:Hdir; simpl.
    + rewrite (Hflat i) by (simpl; auto). simpl. f_equal.
      apply IH. intros j Hj. apply Hflat. right. exact Hj.
    + apply IH. intros j Hj. apply Hflat. right. exact Hj.
Qed.

(** ** What [list] and [generate] leave alone *)

(** [list()] never touches the destination tree, and it leaves no
    archive open: the one it opens it closes at once. *)
Lemma list_frame unzip e w r w' :
  list_ unzip e w = (r, w') ->
  disk w' = disk w /\ cwd w' = cwd w /\ open_archives w' = open_archives w.
Proof.
  destruct (cache_lookup SYNC_LOCAL_FILE w) as [b|] eqn:Hcur.
  - unfold list_, ZipFile, zip_close, isfile, bind, ret.
    rewrite Hcur. simpl. rewrite Hcur.
    destruct (unzip b) as [zip|]; simpl; intros [= <- <-]; simpl; auto.
  - rewrite (list_not_cached unzip e w Hcur). unfold bind at 1.
    rewrite sync_download.
    destruct (remote e) as [| | |chunks complete]; simpl.
    + intros [= <- <-]. simpl. auto.
    + unfold bind, ZipFile, cache_lookup. simpl.
      rewrite rotated_lookup_current. intros [= <- <-]. simpl. auto.
    + intros [= <- <-]. simpl. auto.
    + destruct complete; simpl.
      * unfold bind, ZipFile, zip_close, ret, cache_lookup. simpl.
        rewrite lookup_insert_eq.
        destruct (unzip (concat chunks)) as [zip|]; simpl;
          intros [= <- <-]; simpl; auto.
      * intros [= <- <-]. simpl. auto.
Qed.

(** ** C5 *)

(** The state a [list()] that returns ends in: the one before, when the
    archive was cached; the one its [sync()] left, when it was not. *)
Lemma list_returns unzip e w l w1 :
  list_ unzip e w = (Return l, w1) ->
  w1 = match cache_lookup SYNC_LOCAL_FILE w with
       | Some _ => w
       | None => final (sync e false) w
       end.
Proof.
  destruct (cache_lookup SYNC_LOCAL_FILE w) as [b|] eqn:Hcur.
  - unfold list_, ZipFile, zip_close, isfile, bind, ret.
    rewrite Hcur. simpl. rewrite Hcur.
    destruct (unzip b) as [zip|]; simpl; intros [= _ <-]. destruct w; reflexivity.
  - rewrite (list_not_cached unzip e w Hcur). unfold final, bind at 1.
    rewrite sync_download.
    destruct (remote e) as [| | |chunks complete]; simpl.
    + intros [= _ <-]. reflexivity.
    + unfold bind, ZipFile, cache_lookup. simpl.
      rewrite rotated_lookup_current. discriminate.
    + discriminate.
    + destruct complete; simpl; [|discriminate].
      unfold bind, ZipFile, zip_close, ret, cache_lookup. simpl.
      rewrite lookup_insert_eq.
      destruct (unzip (concat chunks)) as [zip|]; simpl; intros [= _ <-].
      destruct w; reflexivity.
Qed.

(** C5, as the program has it: when the template is not in what [list()]
    returns, [generate] returns [False] and writes nothing of its own:
    it ends in the state its [list()] ended in.  With the archive cached
    that is the state before the call, and nothing at all was written;
    without it, it is the state the [sync()] of [list()] left, cache
    directory and downloaded archive included. *)
Theorem generate_unknown_template
    (unzip : list byte -> option (list zip_entry)) (e : env)
    (template destination : string) (w w1 : world) (l : list string) :
  list_ unzip e w = (Return l, w1) ->
  template ∉ l ->
  generate unzip e template destination w = (Return false, w1) /\
  w1 = match cache_lookup SYNC_LOCAL_FILE w with
       | Some _ => w
       | None => final (sync e false) w
       end.
Proof.
  intros Hlist Hnot. split.
  - unfold generate, bind. rewrite Hlist.
    rewrite bool_decide_eq_false_2 by exact Hnot. reflexivity.
  - apply (list_returns unzip e w l w1 Hlist).
Qed.

Lemma generate_unknown_template_witness :
  list_ (Fixture.unzip_as Fixture.flat) Mount.fetch Demo.no_cache =
    (Return ["t"], final (sync Mount.fetch false) Demo.no_cache) /\
  ("web-api" ∉ ["t"]) /\
  generate (Fixture.unzip_as Fixture.flat) Mount.fetch "web-api" "/out" Demo.no_cache =
    (Return false, final (sync Mount.fetch false) Demo.no_cache).
Proof.
  assert (Hnot : "web-api" ∉ ["t"]).
  { intros Hin. apply list_elem_of_In in Hin. simpl in Hin.
    destruct Hin as [Hin|[]]. discriminate. }
  assert (Hlist :
    list_ (Fixture.unzip_as Fixture.flat) Mount.fetch Demo.no_cache =
    (Return ["t"], final (sync Mount.fetch false) Demo.no_cache))
    by (vm_compute; reflexivity).
  split; [exact Hlist|]. split; [exact Hnot|].
  apply (generate_unknown_template (Fixture.unzip_as Fixture.flat) Mount.fetch
           "web-api" "/out" Demo.no_cache _ ["t"] Hlist Hnot).
Defined.

(** C5 as the specification words it fails: with no archive cached, the
    [list()] inside [generate] syncs, and the cache directory with the
    downloaded archive comes into being; with the cache directory at
    [/var/cache/srcinit] and the destination [/var], that is a file
    written under the destination by a call that returns [False]. *)
Lemma generate_unknown_template_counterexample :
  exists l w1,
    list_ (Fixture.unzip_as Fixture.flat) Mount.fetch Demo.no_cache = (Return l, w1) /\
    ("web-api" ∉ l) /\
    generate (Fixture.unzip_as Fixture.flat) Mount.fetch "web-api" "/var" Demo.no_cache =
      (Return false, w1) /\
    dest_dir Demo.no_cache "/var" `prefix_of` (Mount.dir ++ [SYNC_LOCAL_FILE])%list /\
    file_at Mount.dir Demo.no_cache (Mount.dir ++ [SYNC_LOCAL_FILE])%list = None /\
    file_at Mount.dir w1 (Mount.dir ++ [SYNC_LOCAL_FILE])%list = Some Fixture.archive_bytes.
Proof.
  exists ["t"], (final (sync Mount.fetch false) Demo.no_cache).
  split; [vm_compute; reflexivity|].
  split.
  { intros Hin. apply list_elem_of_In in Hin. simpl in Hin.
    destruct Hin as [Hin|[]]. discriminate. }
  split; [vm_compute; reflexivity|].
  split; [exists ["cache"; "srcinit"; SYNC_LOCAL_FILE]; reflexivity|].
  split; vm_compute; reflexivity.
Qed.

(** ** C7 *)

(** The cache directory after [list()] from a state without current
    archive is the one a [sync()] leaves. *)
Lemma list_not_cached_syncs unzip e w :
  cache_lookup SYNC_LOCAL_FILE w = None ->
  cache (final (list_ unzip e) w) = cache (final (sync e false) w).
Proof.
  intros Hcur. unfold final. rewrite (list_not_cached unzip e w Hcur).
  unfold bind at 1. rewrite sync_download.
  destruct (remote e) as [| | |chunks complete]; simpl; [reflexivity| |reflexivity|].
  - unfold bind, ZipFile, cache_lookup. simpl.
    rewrite rotated_lookup_current. reflexivity.
  - destruct complete; simpl; [|reflexivity].
    unfold bind, ZipFile, zip_close, ret, cache_lookup. simpl.
    rewrite lookup_insert_eq.
    destruct (unzip (concat chunks)); reflexivity.
Qed.

(** C7: [reset()] without a current archive changes nothing; with a
    current archive and an answer that does not decline it returns
    [True] and the cache directory is gone, with all it held; a [list()]
    that follows runs a [sync()] from there, so that a download which
    runs to its end is the only file of the new cache directory. *)
Theorem reset_noop_or_wipe
    (unzip : list byte -> option (list zip_entry)) (e : env) (w : world) :
  (cache_lookup SYNC_LOCAL_FILE w = None -> reset e w = (Return None, w)) /\
  (is_Some (cache_lookup SYNC_LOCAL_FILE w) -> declined (answer e) = false ->
   exists w0,
     reset e w = (Return (Some true), w0) /\
     cache w0 = None /\
     (forall e', cache (final (list_ unzip e') w0) = cache (final (sync e' false) w0)) /\
     (forall a chunks,
        cache (final (list_ unzip {| answer := a; remote := Body chunks true |}) w0) =
        Some {[ SYNC_LOCAL_FILE := concat chunks ]})).
Proof.
  split.
  - intros Hcur. rewrite reset_cases, Hcur. reflexivity.
  - intros [b Hb] Hyes. exists (set_cache None w).
    split; [rewrite reset_cases, Hb, Hyes; reflexivity|].
    split; [reflexivity|].
    assert (Hgone : cache_lookup SYNC_LOCAL_FILE (set_cache None w) = None)
      by reflexivity.
    split.
    + intros e'. apply list_not_cached_syncs, Hgone.
    + intros a chunks. rewrite list_not_cached_syncs by exact Hgone.
      unfold final. rewrite sync_download. simpl.
      rewrite insert_empty. reflexivity.
Qed.

Lemma reset_noop_or_wipe_witness :
  reset (Demo.offline "y") Demo.has_backup_only = (Return None, Demo.has_backup_only) /\
  exists w0,
    reset (Demo.offline "y") Demo.has_both = (Return (Some true), w0) /\
    cache w0 = None.
Proof.
  split.
  - apply (reset_noop_or_wipe (Fixture.unzip_as Fixture.flat)
             (Demo.offline "y") Demo.has_backup_only).
    reflexivity.
  - destruct (proj2 (reset_noop_or_wipe (Fixture.unzip_as Fixture.flat)
                       (Demo.offline "y") Demo.has_both))
      as (w0 & Hreset & Hgone & _).
    + eexists. reflexivity.
    + reflexivity.
    + exists w0. split; assumption.
Defined.

(** ** C9 *)

Lemma off_disk_same_refl w : off_disk_same w w.
Proof. repeat split. Qed.

Lemma off_disk_same_trans w1 w2 w3 :
  off_disk_same w1 w2 -> off_disk_same w2 w3 -> off_disk_same w1 w3.
Proof.
  unfold off_disk_same. intros (-> & -> & ->) (-> & -> & ->). repeat split.
Qed.

Lemma makedirs_frame p w : off_disk_same w (snd (makedirs p w)).
Proof.
  unfold makedirs. destruct (String.eqb p ""); [apply off_disk_same_refl|].
  destruct (mkdirs _ _ _) as [[|] d]; repeat split.
Qed.

Lemma open_wb_frame p w : off_disk_same w (snd (open_wb p w)).
Proof.
  unfold open_wb. destruct (String.eqb p ""); [apply off_disk_same_refl|].
  destruct (walk _ _ _) as [parent|]; [|apply off_disk_same_refl].
  destruct (negb _ || _); [apply off_disk_same_refl|].
  destruct (disk w !! _) as [[data|]|]; repeat split.
Qed.

Lemma copyfileobj_frame file out w : off_disk_same w (snd (copyfileobj file out w)).
Proof.
  unfold copyfileobj. destruct (disk w !! out) as [[data|]|]; repeat split.
Qed.

Lemma zip_open_frame zip name w : snd (zip_open zip name w) = w.
Proof. unfold zip_open. destruct (find _ _); reflexivity. Qed.

Lemma generate_loop_frame zip name destination entries : forall w,
  off_disk_same w (snd (generate_loop zip name destination entries w)).
Proof.
  induction entries as [|entry rest IH]; intros w; simpl.
  - apply off_disk_same_refl.
  - unfold bind at 1.
    destruct (negb (Str.startswith entry name) || String.eqb entry name).
    + apply IH.
    + unfold bind at 1.
      pose proof (makedirs_frame destination w) as Hmk.
      destruct (makedirs destination w) as [[[]|ex] w1]; simpl in Hmk; [|exact Hmk].
      unfold bind at 1.
      pose proof (zip_open_frame zip entry w1) as Hzo.
      destruct (zip_open zip entry w1) as [[file|ex] w2]; simpl in Hzo; subst w2;
        [|exact Hmk].
      unfold bind at 1.
      pose proof (open_wb_frame
        (os_path_join destination (Str.drop (String.length name) entry)) w1) as Hop.
      destruct (open_wb _ w1) as [[out|ex] w3]; simpl in Hop;
        [|exact (off_disk_same_trans _ _ _ Hmk Hop)].
      pose proof (copyfileobj_frame file out w3) as Hcp.
      destruct (copyfileobj file out w3) as [[[]|ex] w4]; simpl in Hcp.
      * eapply off_disk_same_trans; [|apply IH].
        eapply off_disk_same_trans; [exact Hmk|].
        eapply off_disk_same_trans; [exact Hop|exact Hcp].
      * eapply off_disk_same_trans; [exact Hmk|].
        eapply off_disk_same_trans; [exact Hop|exact Hcp].
Qed.

(** What [list()] returned names from is an archive that is there and
    readable, and [list()] has closed it. *)
Lemma list_returned_archive unzip e w l w1 :
  list_ unzip e w = (Return l, w1) -> l ≠ [] ->
  open_archives w1 = open_archives w /\
  exists b zip, cache_lookup SYNC_LOCAL_FILE w1 = Some b /\ unzip b = Some zip.
Proof.
  intros Hlist Hne.
  pose proof (list_frame unzip e w _ _ Hlist) as (_ & _ & Hopen).
  split; [exact Hopen|]. revert Hlist.
  destruct (cache_lookup SYNC_LOCAL_FILE w) as [b|] eqn:Hcur.
  - unfold list_, ZipFile, zip_close, isfile, bind, ret.
    rewrite Hcur. simpl. rewrite Hcur.
    destruct (unzip b) as [zip|] eqn:Hzip; simpl; intros [= _ <-].
    exists b, zip. split; [exact Hcur|exact Hzip].
  - rewrite (list_not_cached unzip e w Hcur). unfold bind at 1.
    rewrite sync_download.
    destruct (remote e) as [| | |chunks complete]; simpl.
    + intros [= <- _]. contradiction.
    + unfold bind, ZipFile, cache_lookup. simpl.
      rewrite rotated_lookup_current. discriminate.
    + discriminate.
    + destruct complete; simpl; [|discriminate].
      unfold bind, ZipFile, zip_close, ret, cache_lookup. simpl.
      rewrite lookup_insert_eq.
      destruct (unzip (concat chunks)) as [zip|] eqn:Hzip; simpl; intros [= _ <-].
      exists (concat chunks), zip. split; [|exact Hzip].
      simpl. apply lookup_insert_eq.
Qed.

(** C9 fails for [generate] when it raises: for a template that is
    listed, a call that ends in an exception has opened the archive and
    nothing has closed it, so one more archive is open than before the
    call. *)
Theorem generate_raising_leaves_archive_open
    (unzip : list byte -> option (list zip_entry)) (e : env)
    (template destination : string) (w w1 w' : world) (l : list string)
    (ex : exn) :
  list_ unzip e w = (Return l, w1) ->
  template ∈ l ->
  generate unzip e template destination w = (Raise ex, w') ->
  open_archives w' = S (open_archives w).
Proof.
  intros Hlist Hin.
  destruct (list_returned_archive unzip e w l w1 Hlist) as (Hopen & b & zip & Hcur & Hzip).
  { intros ->. apply list_elem_of_In in Hin. destruct Hin. }
  unfold generate. unfold bind at 1. rewrite Hlist.
  rewrite bool_decide_eq_true_2 by exact Hin. cbn [negb].
  unfold bind at 1, ZipFile. rewrite Hcur, Hzip.
  unfold bind at 1.
  pose proof (generate_loop_frame zip (template +:+ "/") destination
    (map filename zip) (set_open_archives (S (open_archives w1)) w1)) as Hloop.
  destruct (generate_loop _ _ _ _ _) as [[[]|ex'] w2].
  - unfold bind, zip_close, ret. discriminate.
  - intros [= _ <-]. destruct Hloop as (_ & _ & Hsame). simpl in Hsame.
    rewrite Hsame. congruence.
Qed.

Lemma generate_raising_leaves_archive_open_witness :
  list_ (Fixture.unzip_as Fixture.flat) Fixture.quiet Extra.out_is_file =
    (Return ["t"], Extra.out_is_file) /\
  generate (Fixture.unzip_as Fixture.flat) Fixture.quiet "t" "/out" Extra.out_is_file =
    (Raise OSError, set_open_archives 1 Extra.out_is_file) /\
  open_archives Extra.out_is_file = 0 /\
  open_archives (set_open_archives 1 Extra.out_is_file) = 1.
Proof.
  assert (Hlist :
    list_ (Fixture.unzip_as Fixture.flat) Fixture.quiet Extra.out_is_file =
    (Return ["t"], Extra.out_is_file)) by (vm_compute; reflexivity).
  assert (Hrun :
    generate (Fixture.unzip_as Fixture.flat) Fixture.quiet "t" "/out" Extra.out_is_file =
    (Raise OSError, set_open_archives 1 Extra.out_is_file)) by (vm_compute; reflexivity).
  split; [exact Hlist|]. split; [exact Hrun|]. split; [reflexivity|].
  apply (generate_raising_leaves_archive_open (Fixture.unzip_as Fixture.flat)
           Fixture.quiet "t" "/out" Extra.out_is_file _ _ ["t"] OSError Hlist);
    [|exact Hrun].
  apply list_elem_of_In. left. reflexivity.
Defined.

(** A call of [generate] that returns leaves no archive open: none was
    opened, or the one that was opened is finalised on return. *)
Lemma generate_returning_closes unzip e template destination w r w' :
  generate unzip e template destination w = (Return r, w') ->
  open_archives w' = open_archives w.
Proof.
  unfold generate. unfold bind at 1.
  destruct (list_ unzip e w) as [[l|ex] w1] eqn:Hlist; [|discriminate].
  apply list_frame in Hlist as (_ & _ & Hopen).
  destruct (negb (bool_decide (template ∈ l))).
  - intros [= _ <-]. exact Hopen.
  - unfold bind at 1, ZipFile.
    destruct (cache_lookup SYNC_LOCAL_FILE w1) as [b|]; [|discriminate].
    destruct (unzip b) as [zip|]; [|discriminate].
    unfold bind at 1.
    pose proof (generate_loop_frame zip (template +:+ "/") destination
      (map filename zip) (set_open_archives (S (open_archives w1)) w1)) as Hloop.
    destruct (generate_loop _ _ _ _ _) as [[[]|ex] w2]; [|discriminate].
    unfold bind, zip_close, ret. intros [= _ <-]. simpl.
    destruct Hloop as (_ & _ & Hsame). simpl in Hsame. rewrite Hsame. exact Hopen.
Qed.

(** [list()] closes the archive before it returns. *)
Lemma list_closes_archive unzip e w :
  open_archives (final (list_ unzip e) w) = open_archives w.
Proof.
  unfold final. destruct (list_ unzip e w) as [r w'] eqn:Hlist.
  apply list_frame in Hlist as (_ & _ & Hopen). exact Hopen.
Qed.

(** ** C1 *)

(** C1 fails on the program: for the template with [a.txt] and
    [sub/b.txt], generated into a destination that does not exist yet,
    [generate] creates the destination and writes [a.txt], then raises
    when it opens [sub/b.txt], because only the destination itself was
    created; no [sub/b.txt] is produced. *)
Theorem generate_nested_template_raises
    (unzip : list byte -> option (list zip_entry)) (e : env) (b : list byte) :
  unzip b = Some Fixture.nested ->
  exists w',
    generate unzip e "t" "/out"
      {| cache := Some {[ SYNC_LOCAL_FILE := b ]}; disk := ∅; cwd := [];
         open_archives := 0 |} = (Raise OSError, w') /\
    disk w' !! ["out"] = Some Dir /\
    disk w' !! ["out"; "a.txt"] = Some (File Fixture.a_txt) /\
    disk w' !! ["out"; "sub"] = None /\
    disk w' !! ["out"; "sub"; "b.txt"] = None.
Proof.
  intros Hzip. unfold generate. unfold bind at 1.
  rewrite (list_cached unzip e _ b Fixture.nested)
    by (try apply lookup_singleton_eq; exact Hzip).
  assert (Hknown : bool_decide ("t" ∈ fold_left list_body Fixture.nested []) = true)
    by (vm_compute; reflexivity).
  rewrite Hknown. cbn [negb].
  unfold bind at 1, ZipFile, cache_lookup. cbn [cache].
  rewrite lookup_singleton_eq, Hzip.
  eexists. split; [vm_compute; reflexivity|].
  repeat split; vm_compute; reflexivity.
Qed.

Lemma generate_nested_template_raises_witness :
  exists w',
    generate (Fixture.unzip_as Fixture.nested) Fixture.quiet "t" "/out" Fixture.cached =
      (Raise OSError, w') /\
    disk w' !! ["out"; "sub"; "b.txt"] = None.
Proof.
  destruct (generate_nested_template_raises (Fixture.unzip_as Fixture.nested)
              Fixture.quiet Fixture.archive_bytes eq_refl)
    as (w' & Hrun & _ & _ & _ & Hmissing).
  exists w'. split; [exact Hrun|exact Hmissing].
Defined.

(** The same template in an archive that lists the directory [t/sub/]:
    the marker is taken for a file to write, and opening it raises. *)
Example generate_nested_marker_raises :
  fst (generate (Fixture.unzip_as Fixture.nested_with_marker) Fixture.quiet
         "t" "/out" Fixture.cached) = Raise OSError.
Proof. vm_compute. reflexivity. Qed.

(** With the directory [/out/sub] already there, the template of C1 is
    generated in full. *)
Example generate_nested_into_prepared :
  let w := set_disk (<[ ["out"; "sub"] := Dir ]> {[ ["out"] := Dir ]}) Fixture.cached in
  let w' := final (generate (Fixture.unzip_as Fixture.nested) Fixture.quiet "t" "/out") w in
  fst (generate (Fixture.unzip_as Fixture.nested) Fixture.quiet "t" "/out" w) = Return true /\
  disk w' !! ["out"; "a.txt"] = Some (File Fixture.a_txt) /\
  disk w' !! ["out"; "sub"; "b.txt"] = Some (File Fixture.b_txt) /\
  disk w' !! ["out"; ""] = None.
Proof. repeat split; vm_compute; reflexivity. Qed.

(** A template without nested files is generated into a fresh
    destination; the directory marker [t/] yields no file. *)
Example generate_flat :
  let w' := final (generate (Fixture.unzip_as Fixture.flat) Fixture.quiet "t" "/out")
              Fixture.cached in
  fst (generate (Fixture.unzip_as Fixture.flat) Fixture.quiet "t" "/out" Fixture.cached) =
    Return true /\
  map_to_list (disk w') =
    [(["out"; "a.txt"], File Fixture.a_txt); (["out"], Dir)].
Proof. split; vm_compute; reflexivity. Qed.

(** * Further properties of the cache operations *)

(** ** The prompt *)

Lemma lower_ascii_n c :
  Str.lower_ascii c = "n"%char -> c = "n"%char \/ c = "N"%char.
Proof.
  destruct c as [[] [] [] [] [] [] [] []]; vm_compute; intros H;
    first [discriminate H | left; reflexivity | right; reflexivity].
Qed.

Lemma lower_empty s : Str.lower s = "" -> s = "".
Proof. destruct s; [reflexivity|discriminate]. Qed.

(** X1: Exactly three answers decline a prompt: the empty line, ["n"] and
    ["N"]; every other line, ["no"] included, confirms. *)
Theorem declined_iff (x : string) :
  declined x = true <-> x = "" \/ x = "n" \/ x = "N".
Proof.
  unfold declined. split.
  - destruct x as [|c r]; [auto|].
    intros H. apply orb_true_iff in H as [H|H]; [discriminate H|].
    apply String.eqb_eq in H. injection H as Hc Hr.
    apply lower_empty in Hr. subst r.
    destruct (lower_ascii_n c Hc) as [-> | ->]; auto.
  - intros [-> | [-> | ->]]; reflexivity.
Qed.

(** ** Rollback *)

Lemma rollback_no_backup e w :
  cache_lookup SYNC_LOCAL_FILE_OLD w = None -> sync e true w = (Return true, w).
Proof.
  intros Hold. rewrite sync_rollback. f_equal. unfold cache_lookup in Hold.
  destruct (cache w) as [d|]; [|reflexivity]. rewrite Hold. reflexivity.
Qed.

(** X2: A confirmed rollback with a backup present makes the backup the
    current archive and leaves no backup; a rollback that follows, with
    any answer, changes nothing. *)
Theorem rollback_promotes_backup (e : env) (w : world) (o : list byte) :
  cache_lookup SYNC_LOCAL_FILE_OLD w = Some o ->
  declined (answer e) = false ->
  exists w',
    sync e true w = (Return true, w') /\
    cache_lookup SYNC_LOCAL_FILE w' = Some o /\
    cache_lookup SYNC_LOCAL_FILE_OLD w' = None /\
    forall e', sync e' true w' = (Return true, w').
Proof.
  intros Hold Hyes. rewrite sync_rollback. unfold cache_lookup in Hold.
  destruct (cache w) as [d|]; [|discriminate].
  rewrite Hold, Hyes. eexists. split; [reflexivity|].
  assert (Hgone : cache_lookup SYNC_LOCAL_FILE_OLD
            (set_cache (Some (<[SYNC_LOCAL_FILE := o]> (delete SYNC_LOCAL_FILE_OLD d))) w)
            = None).
  { unfold cache_lookup; simpl.
    rewrite lookup_insert_ne by apply file_old_distinct. apply lookup_delete_eq. }
  split; [unfold cache_lookup; simpl; apply lookup_insert_eq|].
  split; [exact Hgone|].
  intros e'. apply rollback_no_backup. exact Hgone.
Qed.

Lemma rollback_promotes_backup_witness :
  exists w',
    sync (Demo.offline "no") true Demo.has_both = (Return true, w') /\
    cache_lookup SYNC_LOCAL_FILE w' = Some Demo.old_bytes /\
    cache_lookup SYNC_LOCAL_FILE_OLD w' = None.
Proof.
  destruct (rollback_promotes_backup (Demo.offline "no") Demo.has_both Demo.old_bytes)
    as (w' & Hrun & Hcur & Hold & _); [reflexivity|reflexivity|].
  exists w'. split; [exact Hrun|]. split; [exact Hcur|exact Hold].
Defined.

(** ** Sync *)

(** X3: The file operations of [sync()] never raise: what the call returns
    or raises is decided by the remote alone.  [False] for a
    [RequestException], [True] for a [KeyboardInterrupt] and for a body
    that arrives whole, [ValueError] for a [content-length] that is no
    number, and the exception of the stream for a body that breaks
    off. *)
Theorem sync_outcome (e : env) (w : world) :
  fst (sync e false w) =
  match remote e with
  | RequestException => Return false
  | KeyboardInterrupt => Return true
  | BadContentLength => Raise ValueError
  | Body _ true => Return true
  | Body _ false => Raise StreamError
  end.
Proof.
  rewrite sync_download.
  destruct (remote e) as [| | |chunks []]; reflexivity.
Qed.

Lemma sync_current_lookup e w :
  cache_lookup SYNC_LOCAL_FILE (final (sync e false) w) =
  match remote e with
  | Body chunks _ => Some (concat chunks)
  | _ => None
  end.
Proof.
  unfold final. rewrite sync_download.
  destruct (remote e) as [| | |chunks complete]; unfold cache_lookup; simpl.
  - apply rotated_lookup_current.
  - apply rotated_lookup_current.
  - apply rotated_lookup_current.
  - apply lookup_insert_eq.
Qed.

(** X4: The current archive after [sync()]: none when [requests.get] raised
    or the [content-length] is no number, whatever was there before; for
    a response that is streamed, the chunks received, in order, also
    when the body broke off. *)
Theorem sync_current_archive (e : env) (w : world) :
  cache_lookup SYNC_LOCAL_FILE (final (sync e false) w) =
  match remote e with
  | Body chunks _ => Some (concat chunks)
  | _ => None
  end.
Proof. apply sync_current_lookup. Qed.

(** The backup slot after [sync()], whatever the remote did. *)
Lemma sync_backup_slot e w :
  cache_lookup SYNC_LOCAL_FILE_OLD (final (sync e false) w) =
  match cache_lookup SYNC_LOCAL_FILE w with
  | Some b => Some b
  | None => cache_lookup SYNC_LOCAL_FILE_OLD w
  end.
Proof.
  rewrite sync_lookup_other by (symmetry; apply file_old_distinct).
  apply rotated_lookup_old.
Qed.

(** X5: Two downloads in a row keep one generation: the first download is
    the backup, the second the current archive, and what the cache held
    before is gone. *)
Theorem sync_twice (a1 a2 : string) (c1 c2 : list (list byte)) (w : world) :
  let w2 := final (sync {| answer := a2; remote := Body c2 true |} false)
              (final (sync {| answer := a1; remote := Body c1 true |} false) w) in
  cache_lookup SYNC_LOCAL_FILE w2 = Some (concat c2) /\
  cache_lookup SYNC_LOCAL_FILE_OLD w2 = Some (concat c1).
Proof.
  cbv zeta. split.
  - apply (sync_current_lookup {| answer := a2; remote := Body c2 true |}).
  - rewrite sync_backup_slot.
    rewrite (sync_current_lookup {| answer := a1; remote := Body c1 true |}).
    reflexivity.
Qed.

(** X6: A confirmed rollback after a [sync()] puts the archive that was
    current before the [sync()] back in place, byte for byte, whatever
    the [sync()] downloaded or raised; the backup of before is lost. *)
Theorem sync_then_rollback (e1 e2 : env) (w : world)
    (d : gmap string (list byte)) (b : list byte) :
  cache w = Some d ->
  d !! SYNC_LOCAL_FILE = Some b ->
  declined (answer e2) = false ->
  cache (final (sync e2 true) (final (sync e1 false) w)) =
  Some (delete SYNC_LOCAL_FILE_OLD d).
Proof.
  intros Hc Hcur Hyes. unfold final. rewrite sync_rollback, sync_download. simpl.
  assert (Hrot : rotated (cache w) =
                 <[SYNC_LOCAL_FILE_OLD := b]> (delete SYNC_LOCAL_FILE d)).
  { unfold rotated. rewrite Hc, Hcur. reflexivity. }
  assert (Hback : <[SYNC_LOCAL_FILE := b]>
                    (delete SYNC_LOCAL_FILE_OLD (delete SYNC_LOCAL_FILE d)) =
                  delete SYNC_LOCAL_FILE_OLD d).
  { rewrite (delete_delete d), insert_delete_eq. apply insert_id.
    rewrite lookup_delete_ne by (symmetry; apply file_old_distinct). exact Hcur. }
  destruct (remote e1) as [| | |chunks complete]; simpl; rewrite Hrot.
  - rewrite lookup_insert_eq, Hyes. simpl.
    rewrite delete_insert_eq. f_equal. exact Hback.
  - rewrite lookup_insert_eq, Hyes. simpl.
    rewrite delete_insert_eq. f_equal. exact Hback.
  - rewrite lookup_insert_eq, Hyes. simpl.
    rewrite delete_insert_eq. f_equal. exact Hback.
  - rewrite lookup_insert_ne by apply file_old_distinct.
    rewrite lookup_insert_eq, Hyes. simpl.
    rewrite delete_insert_ne by (symmetry; apply file_old_distinct).
    rewrite insert_insert_eq, delete_insert_eq. f_equal. exact Hback.
Qed.

Lemma sync_then_rollback_witness :
  cache (final (sync (Demo.offline "y") true) (final (sync Demo.download false) Demo.has_both)) =
  Some {[ SYNC_LOCAL_FILE := Demo.cur_bytes ]}.
Proof.
  rewrite (sync_then_rollback Demo.download (Demo.offline "y") Demo.has_both
             (<[ SYNC_LOCAL_FILE := Demo.cur_bytes ]>
                {[ SYNC_LOCAL_FILE_OLD := Demo.old_bytes ]})
             Demo.cur_bytes); [|reflexivity|reflexivity|reflexivity].
  f_equal; vm_compute; reflexivity.
Defined.

(** * Further properties of the catalog *)

(** X7: A cached file that is no zip archive: [list()] does not sync again,
    it raises [BadZipFile] and changes nothing; so does [generate]. *)
Theorem list_bad_archive
    (unzip : list byte -> option (list zip_entry)) (e : env) (w : world)
    (b : list byte) (template destination : string) :
  cache_lookup SYNC_LOCAL_FILE w = Some b ->
  unzip b = None ->
  list_ unzip e w = (Raise BadZipFile, w) /\
  generate unzip e template destination w = (Raise BadZipFile, w).
Proof.
  intros Hcur Hbad.
  assert (Hlist : list_ unzip e w = (Raise BadZipFile, w)).
  { unfold list_, ZipFile, isfile, bind, ret. rewrite Hcur. simpl.
    rewrite Hcur, Hbad. reflexivity. }
  split; [exact Hlist|].
  unfold generate, bind. rewrite Hlist. reflexivity.
Qed.

Lemma list_bad_archive_witness :
  list_ (Fixture.unzip_as Fixture.flat) Fixture.quiet Demo.has_current =
    (Raise BadZipFile, Demo.has_current) /\
  generate (Fixture.unzip_as Fixture.flat) Fixture.quiet "t" "/out" Demo.has_current =
    (Raise BadZipFile, Demo.has_current).
Proof.
  apply (list_bad_archive (Fixture.unzip_as Fixture.flat) Fixture.quiet
           Demo.has_current Demo.cur_bytes "t" "/out"); reflexivity.
Defined.

(** X8: A download that broke off is the current archive from then on: the
    [list()] that follows reads the partial file instead of syncing. *)
Theorem broken_download_is_read
    (unzip : list byte -> option (list zip_entry)) (a : string)
    (chunks : list (list byte)) (e : env) (w : world) :
  let w1 := final (sync {| answer := a; remote := Body chunks false |} false) w in
  fst (sync {| answer := a; remote := Body chunks false |} false w) = Raise StreamError /\
  cache_lookup SYNC_LOCAL_FILE w1 = Some (concat chunks) /\
  cache (final (list_ unzip e) w1) = cache w1.
Proof.
  cbv zeta. split; [rewrite sync_download; reflexivity|].
  pose proof (sync_current_lookup {| answer := a; remote := Body chunks false |} w)
    as Hcur. cbn [remote] in Hcur.
  set (w1 := final (sync {| answer := a; remote := Body chunks false |} false) w) in *.
  split; [exact Hcur|].
  unfold final. unfold list_, ZipFile, zip_close, isfile, bind, ret.
  rewrite Hcur. simpl. rewrite Hcur.
  destruct (unzip (concat chunks)); reflexivity.
Qed.

(** X9: [list()] without a current archive, by what the remote does: when
    [requests.get] raises a [RequestException] the result is the empty
    list and the cache directory exists afterwards, its files untouched;
    when it raises [KeyboardInterrupt], [sync()] reports success, no
    archive is there to open, and [list()] raises. *)
Theorem list_without_archive
    (unzip : list byte -> option (list zip_entry)) (e : env) (w : world) :
  cache_lookup SYNC_LOCAL_FILE w = None ->
  (remote e = RequestException ->
   list_ unzip e w =
   (Return [], set_cache (Some (default ∅ (cache w))) w)) /\
  (remote e = KeyboardInterrupt ->
   list_ unzip e w =
   (Raise OSError, set_cache (Some (default ∅ (cache w))) w)).
Proof.
  intros Hcur.
  assert (Hrot : rotated (cache w) = default ∅ (cache w)).
  { unfold rotated, cache_lookup in *. destruct (cache w) as [d|]; [|reflexivity].
    rewrite Hcur. reflexivity. }
  rewrite <- Hrot.
  split; intros Hr; rewrite (list_not_cached unzip e w Hcur); unfold bind at 1;
    rewrite sync_download, Hr; simpl.
  - reflexivity.
  - unfold bind, ZipFile, cache_lookup. simpl.
    rewrite rotated_lookup_current. reflexivity.
Qed.

Lemma list_without_archive_witness :
  list_ (Fixture.unzip_as Fixture.flat) (Demo.offline "") Demo.has_backup_only =
    (Return [], Demo.has_backup_only) /\
  fst (list_ (Fixture.unzip_as Fixture.flat) Demo.interrupted Demo.no_cache) =
    Raise OSError.
Proof.
  destruct (list_without_archive (Fixture.unzip_as Fixture.flat) (Demo.offline "")
              Demo.has_backup_only eq_refl) as [Hoff _].
  destruct (list_without_archive (Fixture.unzip_as Fixture.flat) Demo.interrupted
              Demo.no_cache eq_refl) as [_ Hint].
  split.
  - rewrite (Hoff eq_refl). reflexivity.
  - rewrite (Hint eq_refl). reflexivity.
Defined.

(** ** Strings *)

Lemma length_append a b :
  String.length (a +:+ b) = String.length a + String.length b.
Proof. induction a as [|c a IH]; simpl; [reflexivity|]. f_equal. exact IH. Qed.

Lemma drop_append a b : Str.drop (String.length a) (a +:+ b) = b.
Proof. induction a as [|c a IH]; simpl; [destruct b; reflexivity|exact IH]. Qed.

Lemma take_append a b : Str.take (String.length a) (a +:+ b) = a.
Proof. induction a as [|c a IH]; simpl; [reflexivity|]. f_equal. exact IH. Qed.

Lemma take_drop n : forall s, Str.take n s +:+ Str.drop n s = s.
Proof.
  induction n as [|n IH]; intros s; [reflexivity|].
  destruct s as [|c s]; [reflexivity|].
  change (String c (Str.take n s +:+ Str.drop n s) = String c s).
  f_equal. apply IH.
Qed.

Lemma endswith_append a suf : Str.endswith (a +:+ suf) suf = true.
Proof.
  unfold Str.endswith. rewrite length_append.
  replace (String.length a + String.length suf - String.length suf)
    with (String.length a) by lia.
  rewrite drop_append, String.eqb_refl, andb_true_r.
  apply Nat.leb_le. lia.
Qed.

Lemma endswith_inv s suf :
  Str.endswith s suf = true ->
  s = Str.take (String.length s - String.length suf) s +:+ suf.
Proof.
  unfold Str.endswith. intros H. apply andb_true_iff in H as [_ H].
  apply String.eqb_eq in H.
  rewrite <- (take_drop (String.length s - String.length suf) s) at 1.
  rewrite H. reflexivity.
Qed.

Lemma removesuffix_append a suf :
  suf ≠ "" -> Str.removesuffix (a +:+ suf) suf = a.
Proof.
  intros Hne. unfold Str.removesuffix.
  apply String.eqb_neq in Hne. rewrite Hne, endswith_append. simpl.
  rewrite length_append.
  replace (String.length a + String.length suf - String.length suf)
    with (String.length a) by lia.
  apply take_append.
Qed.

(** The name of a directory member is the listed name followed by the
    separator. *)
Lemma is_dir_filename i :
  is_dir i = true -> Str.removesuffix (filename i) "/" +:+ "/" = filename i.
Proof.
  unfold is_dir, Str.removesuffix. intros Hdir. rewrite Hdir. simpl.
  symmetry. apply (endswith_inv _ "/" Hdir).
Qed.

Lemma list_markers unzip e w b zip :
  cache_lookup SYNC_LOCAL_FILE w = Some b ->
  unzip b = Some zip ->
  exists l,
    list_ unzip e w = (Return l, w) /\
    forall n, n ∈ l <-> In (n +:+ "/") (map filename zip).
Proof.
  intros Hcur Hzip. eexists. split; [apply (list_cached unzip e w b zip Hcur Hzip)|].
  intros n. rewrite list_loop_spec. simpl.
  rewrite list_elem_of_In, !in_map_iff. split.
  - intros (i & <- & Hi). apply filter_In in Hi as [Hi Hdir].
    exists i. split; [symmetry; apply is_dir_filename, Hdir|exact Hi].
  - intros (i & Hname & Hi). exists i. split.
    + rewrite Hname. apply removesuffix_append. discriminate.
    + apply filter_In. split; [exact Hi|].
      unfold is_dir. rewrite Hname. apply endswith_append.
Qed.

(** X10: A name is listed exactly when the archive has a member of that name
    followed by the separator: the prefix that [generate] builds from a
    listed name is the name of a member. *)
Theorem list_names_are_markers
    (unzip : list byte -> option (list zip_entry)) (e : env) (w : world)
    (b : list byte) (zip : list zip_entry) :
  cache_lookup SYNC_LOCAL_FILE w = Some b ->
  unzip b = Some zip ->
  exists l,
    list_ unzip e w = (Return l, w) /\
    forall n, n ∈ l <-> In (n +:+ "/") (map filename zip).
Proof. apply list_markers. Qed.

Lemma list_names_are_markers_witness :
  exists l,
    list_ (Fixture.unzip_as Fixture.nested_with_marker) Fixture.quiet Fixture.cached =
      (Return l, Fixture.cached) /\
    (("t/sub" : string) ∈ l <->
     In ("t/sub" +:+ "/") (map filename Fixture.nested_with_marker)).
Proof.
  destruct (list_names_are_markers (Fixture.unzip_as Fixture.nested_with_marker)
              Fixture.quiet Fixture.cached Fixture.archive_bytes
              Fixture.nested_with_marker eq_refl eq_refl) as (l & Hrun & Hiff).
  exists l. split; [exact Hrun|apply Hiff].
Defined.

(** * Further properties of [generate] *)

(** [generate] for a listed template, once the catalog is read: the
    archive is opened and the loop runs. *)
Lemma generate_listed unzip e w b zip template destination :
  cache_lookup SYNC_LOCAL_FILE w = Some b ->
  unzip b = Some zip ->
  In (template +:+ "/") (map filename zip) ->
  generate unzip e template destination w =
  (generate_loop zip (template +:+ "/") destination (map filename zip) ;;
   zip_close ;; ret true)
    (set_open_archives (S (open_archives w)) w).
Proof.
  intros Hcur Hzip Hin.
  destruct (list_markers unzip e w b zip Hcur Hzip) as (l & Hlist & Hl).
  unfold generate. unfold bind at 1. rewrite Hlist.
  rewrite bool_decide_eq_true_2 by (apply Hl; exact Hin).
  cbn [negb]. unfold bind at 1. unfold ZipFile. rewrite Hcur, Hzip. reflexivity.
Qed.

Lemma generate_loop_skipped zip name destination entries w :
  (forall entry, In entry entries -> skipped name entry = true) ->
  generate_loop zip name destination entries w = (Return tt, w).
Proof.
  induction entries as [|entry rest IH]; intros Hskip; [reflexivity|].
  simpl. unfold bind at 1. unfold skipped in Hskip.
  rewrite (Hskip entry) by (left; reflexivity). simpl.
  apply IH. intros x Hx. apply Hskip. right. exact Hx.
Qed.

(** X11: A listed template without members below it: [generate] returns
    [True] and the state is as before the call: nothing is written, not
    even the destination is created. *)
Theorem generate_empty_template
    (unzip : list byte -> option (list zip_entry)) (e : env) (w : world)
    (b : list byte) (zip : list zip_entry) (template destination : string) :
  cache_lookup SYNC_LOCAL_FILE w = Some b ->
  unzip b = Some zip ->
  In (template +:+ "/") (map filename zip) ->
  (forall i, In i zip -> skipped (template +:+ "/") (filename i) = true) ->
  generate unzip e template destination w = (Return true, w).
Proof.
  intros Hcur Hzip Hin Hskip.
  rewrite (generate_listed unzip e w b zip template destination Hcur Hzip Hin).
  unfold bind. rewrite generate_loop_skipped.
  - destruct w; reflexivity.
  - intros entry Hentry. apply in_map_iff in Hentry as (i & <- & Hi).
    apply Hskip, Hi.
Qed.

Lemma generate_empty_template_witness :
  generate (Fixture.unzip_as Extra.with_empty) Fixture.quiet "empty" "/out" Fixture.cached =
  (Return true, Fixture.cached).
Proof.
  apply (generate_empty_template (Fixture.unzip_as Extra.with_empty) Fixture.quiet
           Fixture.cached Fixture.archive_bytes Extra.with_empty "empty" "/out").
  - reflexivity.
  - reflexivity.
  - left. reflexivity.
  - intros i [<-|[<-|[]]]; reflexivity.
Defined.

(** ** Paths *)




















(** ** A destination that cannot be created *)







(** The empty destination, and a destination that is a file: nothing is
    created. *)
Example generate_destination_blocked_plain :
  generate (Fixture.unzip_as Fixture.flat) Fixture.quiet "t" "/out" Extra.out_is_file =
    (Raise OSError, set_open_archives 1 Extra.out_is_file) /\
  generate (Fixture.unzip_as Fixture.flat) Fixture.quiet "t" "" Fixture.cached =
    (Raise OSError, set_open_archives 1 Fixture.cached).
Proof. split; vm_compute; reflexivity. Qed.

(** ** One round of the loop, for a plain name below a ready destination *)







(** ** The whole loop *)








(** ** A template of files directly below its directory *)



(** With member names that are all different, the bytes [zip.open] gives
    for a member's name are that member's. *)
Lemma content_of_unique zip i :
  NoDup (map filename zip) -> In i zip -> content_of zip (filename i) = content i.
Proof.
  intros Hnodup Hi. unfold content_of.
  destruct (find _ (rev zip)) as [j|] eqn:Hfind.
  - apply find_some in Hfind as [Hj Hname]. apply in_rev in Hj.
    apply String.eqb_eq in Hname.
    assert (Hsame : forall l, NoDup (map filename l) -> In i l -> In j l -> j = i).
    { clear -Hname. induction l as [|x l IH]; intros Hnd Hil Hjl; [destruct Hil|].
      simpl in Hnd. apply NoDup_cons in Hnd as [Hx Hnd].
      rewrite list_elem_of_In in Hx.
      destruct Hil as [->|Hil], Hjl as [->|Hjl]; [reflexivity| | |apply IH; assumption].
      - exfalso. apply Hx. rewrite <- Hname. apply in_map, Hjl.
      - exfalso. apply Hx. rewrite Hname. apply in_map, Hil. }
    rewrite (Hsame zip Hnodup Hi Hj). reflexivity.
  - apply in_rev in Hi. apply (find_none _ _ Hfind i) in Hi.
    rewrite String.eqb_refl in Hi. discriminate.
Qed.

(** ** A member with an absolute name below the template *)






(** * The program as a whole *)

Lemma final_then_ret {A} (m : M A) w : final (m ;; ret tt) w = final m w.
Proof.
  unfold final, bind, ret. destruct (m w) as [[a|ex] w']; reflexivity.
Qed.

(** [list()] changes the cache directory only through the [sync()] it
    may run. *)
Lemma list_cache unzip e w :
  cache (final (list_ unzip e) w) =
  match cache_lookup SYNC_LOCAL_FILE w with
  | Some _ => cache w
  | None => cache (final (sync e false) w)
  end.
Proof.
  destruct (cache_lookup SYNC_LOCAL_FILE w) as [b|] eqn:Hcur.
  - unfold final, list_, ZipFile, zip_close, isfile, bind, ret.
    rewrite Hcur. simpl. rewrite Hcur.
    destruct (unzip b); reflexivity.
  - apply list_not_cached_syncs, Hcur.
Qed.

Lemma two_names_cache w w' : cache w' = cache w -> two_names w -> two_names w'.
Proof. unfold two_names, cache_lookup. intros ->. auto. Qed.

Lemma main_two_names unzip e args w :
  is_generate args = false ->
  two_names w -> two_names (final (main unzip e args) w).
Proof.
  intros Hargs Hinv.
  assert (Hsync : two_names (final (sync e false) w))
    by apply (run_two_names OpSync e w Hinv).
  assert (Hlist : two_names (final (list_ unzip e) w)).
  { pose proof (list_cache unzip e w) as Hc.
    destruct (cache_lookup SYNC_LOCAL_FILE w).
    - apply (two_names_cache w _ Hc Hinv).
    - apply (two_names_cache _ _ Hc Hsync). }
  destruct args as [template output| |rollback| |]; [discriminate Hargs| | | |];
    unfold main; rewrite ?final_then_ret.
  - exact Hlist.
  - destruct rollback; [apply (run_two_names OpRollback e w Hinv)|exact Hsync].
  - apply (run_two_names OpReset e w Hinv).
  - exact Hinv.
Qed.

(** X15: Whatever commands other than [generate] the program is run with,
    from an empty cache on, and however the runs end, the cache
    directory holds no file but the current archive and the one backup.
    ([generate] is left out: it writes where the archive and the output
    option send it, which can be the cache directory.) *)
Theorem program_keeps_two_archives
    (unzip : list byte -> option (list zip_entry)) (w : world) :
  invoked unzip w ->
  two_names w /\ size (backups w) <= 1.
Proof.
  intros Hrun.
  assert (Hinv : two_names w).
  { induction Hrun as [w Hempty|e args w Hargs _ IH].
    - intros name [b Hb]. rewrite Hempty in Hb. discriminate.
    - apply main_two_names; assumption. }
  split; [exact Hinv|].
  assert (Hsub : backups w ⊆ {[SYNC_LOCAL_FILE_OLD]}).
  { intros name Hin. apply elem_of_backups in Hin as [Hcur Hin].
    apply Hinv in Hin as [->| ->];
      [contradiction|apply elem_of_singleton; reflexivity]. }
  apply subseteq_size in Hsub. rewrite size_singleton in Hsub. exact Hsub.
Qed.

Lemma program_keeps_two_archives_witness :
  invoked (Fixture.unzip_as Fixture.flat)
    (final (main (Fixture.unzip_as Fixture.flat) Mount.fetch CmdList)
       (final (main (Fixture.unzip_as Fixture.flat) Demo.download (CmdSync false))
          (final (main (Fixture.unzip_as Fixture.flat) Demo.download CmdList)
             Demo.no_cache))) /\
  size (backups
    (final (main (Fixture.unzip_as Fixture.flat) Mount.fetch CmdList)
       (final (main (Fixture.unzip_as Fixture.flat) Demo.download (CmdSync false))
          (final (main (Fixture.unzip_as Fixture.flat) Demo.download CmdList)
             Demo.no_cache)))) <= 1.
Proof.
  assert (Hrun : invoked (Fixture.unzip_as Fixture.flat)
    (final (main (Fixture.unzip_as Fixture.flat) Mount.fetch CmdList)
       (final (main (Fixture.unzip_as Fixture.flat) Demo.download (CmdSync false))
          (final (main (Fixture.unzip_as Fixture.flat) Demo.download CmdList)
             Demo.no_cache)))).
  { do 3 (apply invoked_main; [reflexivity|]).
    apply invoked_empty. intros name. reflexivity. }
  split; [exact Hrun|].
  exact (proj2 (program_keeps_two_archives _ _ Hrun)).
Defined.
